(** * CloudKitty SQLAlchemy storage backend: rated frames, tenant sessions and
      the read-side aggregation queries.

    Shallow embedding of [cloudkitty/storage/sqlalchemy/__init__.py]
    (class [SQLAlchemyStorage]).  The relational store is a list of rows, a
    query is a filter followed by a grouping and a fold, and the Python
    post-processing loops are folds over the rows the query returned. *)

From Stdlib Require Import ZArith QArith Qcanon Lia.
From stdpp Require Import base option list gmap strings fin_maps.

Local Open Scope Z_scope.

(** ** Decimal amounts

    [qty] and [rate] are [decimal.Decimal] values on the Python side and
    NUMERIC on the database side.  Both compare numerically (2.50 equals 2.5)
    and add without rounding as long as the result fits the available digits
    (28 significant digits in Python's default context), which the amounts
    of a billing period do by a wide margin.  An amount is therefore
    modelled by the rational number it denotes, in canonical form, and
    addition by the addition of rationals. *)

Definition decimal : Type := Qc.

(** [Decimal(n)] for an integer literal.  [Decimal(d)] on a value that is
    already a decimal returns it unchanged and is left out below. *)
Definition Decimal (z : Z) : decimal := Q2Qc (inject_Z z).

Definition dec_add (a b : decimal) : decimal := (a + b)%Qc.

(** Truth value of a Python number: zero is falsy. *)
Definition dec_truthy (d : decimal) : bool :=
  if Qc_eq_dec d (Decimal 0) then false else true.

(** Truth value of an optional Python string: [None] and [''] are falsy. *)
Definition str_truthy (s : option string) : bool :=
  match s with
  | Some x => if decide (x = "") then false else true
  | None => false
  end.

(** ** The description blob

    [json.dumps] on the way in and [cast(JSON)] on the way out cancel, so a
    frame keeps the document.  Queries only apply [-> key] followed by
    [astext] to it, which looks at the top level: a member is kept by the
    text that operator renders for it, [None] standing for a JSON null. *)

Inductive json : Type :=
  | JString (s : string)
  | JObject (members : gmap string (option string)).

(** [doc.cast(JSON)[key].astext]: SQL NULL when the document is not an object,
    when the key is absent and when the member is null. *)
Definition json_astext (doc : json) (key : string) : option string :=
  match doc with
  | JObject members => mjoin (members !! key)
  | JString _ => None
  end.

(** ** Rated frames (rows of [rated_data_frames])

    Points in time are counted in seconds, as integers, on both sides of
    [ck_utils.ts2dt] and [ck_utils.dt2ts].  [begin] and [end] are what
    [usage_start_dt.get(tenant_id)] and [usage_end_dt.get(tenant_id)] gave
    when the frame was built, hence optional. *)

Record frame : Type := Frame {
  tenant_id : string;
  res_type : string;
  unit : string;
  qty : decimal;
  rate : decimal;
  desc : json;
  begin : option Z;
  end_ : option Z
}.

Definition NO_DATA : string := "_NO_DATA_".

Definition is_sentinel (f : frame) : bool :=
  if decide (res_type f = NO_DATA) then true else false.

(** ** Exceptions

    [KeyError], [AttributeError] and [TypeError] are Python's own;
    [NoTimeFrame] comes from [cloudkitty.storage].  [InvalidFrame] is the
    name the storage contract gives to the rejection of a malformed usage
    record; no statement of this backend raises it. *)

Inductive exn : Type :=
  | KeyError (key : string)
  | AttributeError (what : string)
  | TypeError
  | NoTimeFrame
  | InvalidFrame.

(** ** Write path: per-tenant sessions

    A database session is the list of rows added to its open transaction.
    The instance dictionaries are finite maps keyed by tenant. *)

Record storage : Type := Storage {
  _session : gmap string (list frame);
  _has_data : gmap string bool;
  usage_start_dt : gmap string Z;
  usage_end_dt : gmap string Z;
  table : list frame
}.

Definition set_session (st : storage) (s : gmap string (list frame)) : storage :=
  {| _session := s; _has_data := _has_data st;
     usage_start_dt := usage_start_dt st; usage_end_dt := usage_end_dt st;
     table := table st |}.

Definition set_has_data (st : storage) (h : gmap string bool) : storage :=
  {| _session := _session st; _has_data := h;
     usage_start_dt := usage_start_dt st; usage_end_dt := usage_end_dt st;
     table := table st |}.

Definition set_table (st : storage) (t : list frame) : storage :=
  {| _session := _session st; _has_data := _has_data st;
     usage_start_dt := usage_start_dt st; usage_end_dt := usage_end_dt st;
     table := t |}.

(** A method either returns or raises; in both cases the instance is left in
    the state it had reached. *)
Definition M (A : Type) : Type := storage -> (exn + A) * storage.

Definition ret {A} (a : A) : M A := fun st => (inr a, st).
Definition raise {A} (e : exn) : M A := fun st => (inl e, st).
Definition bind {A B} (m : M A) (k : A -> M B) : M B :=
  fun st => match m st with
            | (inr a, st') => k a st'
            | (inl e, st') => (inl e, st')
            end.
Definition get_st : M storage := fun st => (inr st, st).
Definition put_st (st' : storage) : M Datatypes.unit := fun _ => (inr tt, st').

#[global] Instance M_ret : MRet M := @ret.
#[global] Instance M_bind : MBind M := fun A B k m => bind m k.

(** [d[key]] on a Python dict. *)
Definition subscript {A} (o : option A) (key : string) : M A :=
  match o with
  | Some a => ret a
  | None => raise (KeyError key)
  end.

Fixpoint for_each {A} (l : list A) (body : A -> M Datatypes.unit) : M Datatypes.unit :=
  match l with
  | [] => ret tt
  | a :: l' => body a ;; for_each l' body
  end.

(** Usage records handed over by the dispatcher: Python dicts whose keys may
    be missing. *)
Record vol_dict : Type := Vol { v_qty : option decimal; v_unit : option string }.
Record rating_dict : Type := Rating { r_price : option decimal }.
Record usage_frame : Type := Usage {
  u_vol : option vol_dict;
  u_rating : option rating_dict;
  u_desc : option json
}.

Definition _check_session (tenant : string) : M Datatypes.unit :=
  st ← get_st;
  match _session st !! tenant with
  | Some _ => ret tt
  | None => put_st (set_session st (<[tenant := []]> (_session st)))
  end.

Definition add_time_frame (f : frame) : M Datatypes.unit :=
  st ← get_st;
  pending ← subscript (_session st !! tenant_id f) (tenant_id f);
  put_st (set_session st (<[tenant_id f := pending ++ [f]]> (_session st))).

Definition _append_time_frame (rtype : string) (fr : usage_frame)
    (tenant : string) : M Datatypes.unit :=
  vol ← subscript (u_vol fr) "vol";
  q ← subscript (v_qty vol) "qty";
  u ← subscript (v_unit vol) "unit";
  let rating := default (Rating None) (u_rating fr) in
  let rate0 := r_price rating in
  let rate1 := match rate0 with
               | Some p => if dec_truthy p then p else Decimal 0
               | None => Decimal 0
               end in
  d ← subscript (u_desc fr) "desc";
  st ← get_st;
  add_time_frame {| tenant_id := tenant; res_type := rtype; unit := u;
                    qty := q; rate := rate1; desc := d;
                    begin := usage_start_dt st !! tenant;
                    end_ := usage_end_dt st !! tenant |}.

Definition empty_frame : usage_frame :=
  {| u_vol := Some (Vol (Some (Decimal 0)) (Some "None"));
     u_rating := Some (Rating (Some (Decimal 0)));
     u_desc := Some (JString "") |}.

Definition _pre_commit (tenant : string) : M Datatypes.unit :=
  _check_session tenant ;;
  st ← get_st;
  if default false (_has_data st !! tenant)
  then ret tt
  else _append_time_frame NO_DATA empty_frame tenant.

Definition _commit (tenant : string) : M Datatypes.unit :=
  st ← get_st;
  pending ← subscript (_session st !! tenant) tenant;
  put_st (set_table (set_session st (<[tenant := []]> (_session st)))
                    (table st ++ pending)).

Definition _dispatch (data : list (string * list usage_frame))
    (tenant : string) : M Datatypes.unit :=
  _check_session tenant ;;
  for_each data (fun '(service, frames) =>
    for_each frames (fun fr =>
      _append_time_frame service fr tenant ;;
      st ← get_st;
      put_st (set_has_data st (<[tenant := true]> (_has_data st))))).

(** ** Read path: the query engine *)

(** *** SQL building blocks *)

(** [column >= v] and [column <= v]; a NULL column satisfies neither. *)
Definition col_ge (c : option Z) (v : Z) : bool :=
  match c with
  | Some x => bool_decide (v ≤ x)
  | None => false
  end.

Definition col_le (c : option Z) (v : Z) : bool :=
  match c with
  | Some x => bool_decide (x ≤ v)
  | None => false
  end.

(** [q.filter(fm.begin >= begin, fm.end <= end)] *)
Definition in_window (b e : Z) (f : frame) : bool :=
  col_ge (begin f) b && col_le (end_ f) e.

(** [if tenant_id: q = q.filter(fm.tenant_id == tenant_id)] *)
Definition tenant_filter (tenant : option string) (f : frame) : bool :=
  if str_truthy tenant then bool_decide (Some (tenant_id f) = tenant) else true.

(** [if service: q = q.filter(fm.res_type == service)] *)
Definition service_filter (service : option string) (f : frame) : bool :=
  if str_truthy service then bool_decide (Some (res_type f) = service) else true.

(** [func.sum] over a set of rows: NULL over no row at all. *)
Definition sum_dec (l : list decimal) : decimal :=
  foldr dec_add (Decimal 0) l.

Definition sql_sum (l : list decimal) : option decimal :=
  match l with
  | [] => None
  | _ => Some (sum_dec l)
  end.

(** [GROUP BY]: rows with the same key are gathered, groups listed in the
    order their first row is met (SQL leaves the order open; every result
    below that depends on it is proved for any order of the rows). *)
Fixpoint group_insert {K A} `{EqDecision K} (k : K) (a : A)
    (groups : list (K * list A)) : list (K * list A) :=
  match groups with
  | [] => [(k, [a])]
  | (k', g) :: rest =>
      if decide (k = k') then (k', g ++ [a]) :: rest
      else (k', g) :: group_insert k a rest
  end.

Definition group_by {K A} `{EqDecision K} (key : A -> K) (l : list A)
    : list (K * list A) :=
  foldl (fun groups a => group_insert (key a) a groups) [] l.

(** *** Resource-type dependent columns *)

(** [case([(res_type == 'image', desc['properties.instance_uuid'])],
          else_=desc['instance_id'])] *)
Definition instance_id_expr (f : frame) : option string :=
  if decide (res_type f = "image")
  then json_astext (desc f) "properties.instance_uuid"
  else json_astext (desc f) "instance_id".

(** [case([(res_type == 'compute', desc['name']),
           (res_type.in_(['network.bw.in', 'network.bw.out']),
            desc['display_name'])],
          else_=desc['instance_name'])] *)
Definition instance_name_expr (f : frame) : option string :=
  if decide (res_type f = "compute")
  then json_astext (desc f) "name"
  else if bool_decide (res_type f ∈ ["network.bw.in"; "network.bw.out"])
  then json_astext (desc f) "display_name"
  else json_astext (desc f) "instance_name".

(** *** Keyword filters of [get_time_frame]

    A keyword names an attribute of the frame model, that is one of its
    columns, and carries a value of any type. *)

Inductive column : Type :=
  | col_tenant_id | col_res_type | col_unit | col_qty | col_rate
  | col_desc | col_begin | col_end.

Inductive cell : Type :=
  | CNone
  | CStr (s : string)
  | CDec (d : decimal)
  | CTime (t : Z)
  | CDoc (j : json).

#[global] Instance column_eq_dec : EqDecision column.
Proof. solve_decision. Defined.

#[global] Instance column_countable : Countable column.
Proof.
  refine (inj_countable'
    (fun c => match c with
              | col_tenant_id => 0 | col_res_type => 1 | col_unit => 2
              | col_qty => 3 | col_rate => 4 | col_desc => 5
              | col_begin => 6 | col_end => 7
              end%nat)
    (fun n => match n with
              | 0 => col_tenant_id | 1 => col_res_type | 2 => col_unit
              | 3 => col_qty | 4 => col_rate | 5 => col_desc
              | 6 => col_begin | _ => col_end
              end%nat) _).
  by intros [].
Defined.

#[global] Instance json_eq_dec : EqDecision json.
Proof. solve_decision. Defined.

#[global] Instance cell_eq_dec : EqDecision cell.
Proof. solve_decision. Defined.

Definition time_cell (t : option Z) : cell :=
  match t with
  | Some x => CTime x
  | None => CNone
  end.

(** [getattr(self.frame_model, filter_name)] read on a row. *)
Definition getattr (c : column) (f : frame) : cell :=
  match c with
  | col_tenant_id => CStr (tenant_id f)
  | col_res_type => CStr (res_type f)
  | col_unit => CStr (unit f)
  | col_qty => CDec (qty f)
  | col_rate => CDec (rate f)
  | col_desc => CDoc (desc f)
  | col_begin => time_cell (begin f)
  | col_end => time_cell (end_ f)
  end.

(** Truth value of a keyword argument. *)
Definition cell_truthy (v : cell) : bool :=
  match v with
  | CNone => false
  | CStr s => str_truthy (Some s)
  | CDec d => dec_truthy d
  | CTime _ => true
  | CDoc _ => true
  end.

(** [column == value]; NULL equals nothing. *)
Definition col_eq (c : column) (v : cell) (f : frame) : bool :=
  match getattr c f with
  | CNone => false
  | x => bool_decide (x = v)
  end.

(** *** Result shapes *)

Record entry : Type := Entry {
  e_qty : decimal;
  e_unit : string;
  e_rate : decimal
}.

(** Rows of the [get_project_usage] query. *)
Record project_row : Type := ProjectRow {
  pr_tenant_id : string;
  pr_res_type : string;
  pr_instance_id : list (option string);
  pr_instance_name : list (option string);
  pr_unit : string;
  pr_qty : decimal;
  pr_rate : decimal
}.

(** Values held by a tenant's dictionary in [get_project_usage]: the
    [{'rate': ...}] dictionary under ['total'], a list of entries under a
    resource type. *)
Inductive pu_value : Type :=
  | PUTotal (total_rate : decimal)
  | PUList (entries : list entry).

(** What a tenant's dictionary lists: the rates of all the entries of all its
    resource-type lists, added up. *)
Definition pu_rate_sum (v : pu_value) : decimal :=
  match v with
  | PUTotal _ => Decimal 0
  | PUList entries => sum_dec (e_rate <$> entries)
  end.

Definition entries_rate_sum (tenant_usage : gmap string pu_value) : decimal :=
  map_fold (fun _ v acc => dec_add (pu_rate_sum v) acc) (Decimal 0)
           tenant_usage.

(** Rows of the [get_instance_usage] query. *)
Record instance_row : Type := InstanceRow {
  ir_tenant_id : string;
  ir_res_type : string;
  ir_unit : string;
  ir_instance_id : option string;
  ir_instance_name : list (option string);
  ir_qty : decimal;
  ir_rate : decimal
}.

(** Values held by an instance's dictionary in [get_instance_usage]: the id
    under ['instance_id'], and Python lists, which hold the aggregated names
    under ['instance_name'] and entries under a resource type. *)
Inductive iu_item : Type :=
  | ItemName (name : option string)
  | ItemEntry (e : entry).

Inductive iu_value : Type :=
  | IUId (id : option string)
  | IUList (items : list iu_item).

(** Rows and result of [get_bandwidth_hourly_usage]. *)
Record bw_row : Type := BwRow {
  bw_begin : option Z;
  bw_end : option Z;
  bw_tenant_id : string;
  bw_unit : string;
  bw_in : decimal;
  bw_out : decimal
}.

Record bw_total : Type := BwTotal {
  total_in : decimal;
  total_out : decimal;
  total_unit : option string
}.

Record bw_usage : Type := BwUsage {
  data : list bw_row;
  total : bw_total
}.

(** [d.setdefault(k, v)] *)
Definition setdefault {K V} `{Countable K} (k : K) (v : V) (d : gmap K V)
    : gmap K V :=
  match d !! k with
  | Some _ => d
  | None => <[k := v]> d
  end.

(** A [for] loop over the rows a query returned, left at the first
    exception. *)
Fixpoint for_rows {S A} (step : S -> A -> exn + S) (acc : S) (l : list A)
    : exn + S :=
  match l with
  | [] => inr acc
  | a :: l' =>
      match step acc a with
      | inr acc' => for_rows step acc' l'
      | inl e => inl e
      end
  end.

Definition BW_IN : string := "network.bw.in".
Definition BW_OUT : string := "network.bw.out".

Section QueryEngine.

(** [ck_utils.get_month_start()] and [ck_utils.get_next_month()] at the time
    of the call, and the collector conversion [entry.to_cloudkitty].  A
    boundary argument is a datetime or [None]; a datetime is never falsy,
    so [if not begin] tests for [None]. *)
Context (get_month_start get_next_month : Z).
Context {R : Type} (to_cloudkitty : frame -> R).

(** Every query opens a session of its own on the database and reads the
    committed table, passed below as [rows] (the [table] of the storage
    state at that time). *)

(** The WHERE clause shared by the aggregation queries. *)
Definition base_filter (b e : option Z) (tenant service : option string)
    (f : frame) : bool :=
  tenant_filter tenant f && service_filter service f
  && in_window (default get_month_start b) (default get_next_month e) f.

Definition get_total (rows : list frame) (b e : option Z)
    (tenant service : option string) : option decimal :=
  sql_sum (rate <$> List.filter (base_filter b e tenant service) rows).

Definition get_tenants (rows : list frame) (b e : option Z) : list string :=
  remove_dups (tenant_id <$>
    List.filter (in_window (default get_month_start b)
                           (default get_next_month e)) rows).

(** The loop over [filters.items()]. *)
Definition apply_filters (items : list (column * cell)) (q : list frame)
    : list frame :=
  foldl (fun q '(filter_name, filter_value) =>
           if cell_truthy filter_value
           then List.filter (col_eq filter_name filter_value) q
           else q) q items.

Definition get_time_frame (rows : list frame) (b e : Z)
    (filters : gmap column cell) : exn + list R :=
  let q := List.filter (in_window b e) rows in
  let q := apply_filters (map_to_list filters) q in
  let q := if cell_truthy (default CNone (filters !! col_res_type))
           then q
           else List.filter (fun f => negb (is_sentinel f)) q in
  if (length q =? 0)%nat then inl NoTimeFrame
  else inr (to_cloudkitty <$> q).

(** The WHERE clause [get_time_frame] has accumulated when it runs the
    query. *)
Definition time_frame_where (b e : Z) (filters : gmap column cell)
    (f : frame) : bool :=
  in_window b e f
  && forallb (fun '(filter_name, filter_value) =>
                if cell_truthy filter_value
                then col_eq filter_name filter_value f
                else true) (map_to_list filters)
  && (if cell_truthy (default CNone (filters !! col_res_type))
      then true
      else negb (is_sentinel f)).

(** **** get_project_usage *)

Definition project_query (rows : list frame) (b e : option Z)
    (tenant service : option string) : list project_row :=
  let q := List.filter (fun f => base_filter b e tenant service f
                                 && negb (is_sentinel f)) rows in
  (fun '(k, g) =>
     {| pr_tenant_id := k.1.1;
        pr_res_type := k.1.2;
        pr_instance_id := remove_dups (instance_id_expr <$> g);
        pr_instance_name := remove_dups (instance_name_expr <$> g);
        pr_unit := k.2;
        pr_qty := sum_dec (qty <$> g);
        pr_rate := sum_dec (rate <$> g) |})
  <$> group_by (fun f => (tenant_id f, res_type f, unit f)) q.

Definition project_step (usage : gmap string (gmap string pu_value))
    (r : project_row) : exn + gmap string (gmap string pu_value) :=
  let tenant_usage := default ∅ (usage !! pr_tenant_id r) in
  let tenant_usage := setdefault "total" (PUTotal (Decimal 0)) tenant_usage in
  match tenant_usage !! "total" with
  | Some (PUTotal t) =>
      let tenant_usage :=
        <["total" := PUTotal (dec_add t (pr_rate r))]> tenant_usage in
      let tenant_usage := setdefault (pr_res_type r) (PUList []) tenant_usage in
      match tenant_usage !! pr_res_type r with
      | Some (PUList l) =>
          inr (<[pr_tenant_id r :=
                 <[pr_res_type r :=
                    PUList (l ++ [{| e_qty := pr_qty r; e_unit := pr_unit r;
                                     e_rate := pr_rate r |}])]>
                 tenant_usage]> usage)
      | _ => inl (AttributeError "append")
      end
  | _ => inl TypeError
  end.

Definition get_project_usage (rows : list frame) (b e : option Z)
    (tenant service : option string)
    : exn + gmap string (gmap string pu_value) :=
  for_rows project_step ∅ (project_query rows b e tenant service).

(** **** get_instance_usage *)

Definition instance_query (rows : list frame) (b e : option Z)
    (tenant service : option string) : list instance_row :=
  let q := List.filter (fun f => base_filter b e tenant service f
                                 && negb (is_sentinel f)) rows in
  (fun '(k, g) =>
     {| ir_tenant_id := k.1.1.1;
        ir_res_type := k.1.1.2;
        ir_unit := k.1.2;
        ir_instance_id := k.2;
        ir_instance_name := remove_dups (instance_name_expr <$> g);
        ir_qty := sum_dec (qty <$> g);
        ir_rate := sum_dec (rate <$> g) |})
  <$> group_by (fun f => (tenant_id f, res_type f, unit f,
                          instance_id_expr f)) q.

Definition instance_step
    (usage : gmap string (gmap (option string) (gmap string iu_value)))
    (r : instance_row)
    : exn + gmap string (gmap (option string) (gmap string iu_value)) :=
  let tenant_usage := default ∅ (usage !! ir_tenant_id r) in
  let tenant_usage :=
    setdefault (ir_instance_id r)
      (<["instance_name" := IUList (ItemName <$> ir_instance_name r)]>
         (<["instance_id" := IUId (ir_instance_id r)]> ∅))
      tenant_usage in
  let instance_usage := default ∅ (tenant_usage !! ir_instance_id r) in
  let instance_usage := setdefault (ir_res_type r) (IUList []) instance_usage in
  match instance_usage !! ir_res_type r with
  | Some (IUList l) =>
      inr (<[ir_tenant_id r :=
             <[ir_instance_id r :=
                <[ir_res_type r :=
                   IUList (l ++ [ItemEntry {| e_qty := ir_qty r;
                                              e_unit := ir_unit r;
                                              e_rate := ir_rate r |}])]>
                instance_usage]>
             tenant_usage]> usage)
  | _ => inl (AttributeError "append")
  end.

Definition get_instance_usage (rows : list frame) (b e : option Z)
    (tenant service : option string)
    : exn + gmap string (gmap (option string) (gmap string iu_value)) :=
  for_rows instance_step ∅ (instance_query rows b e tenant service).

(** **** get_bandwidth_hourly_usage *)

(** [func.sum(case([(fm.res_type == t, fm.qty)], else_=0))] *)
Definition bandwidth (t : string) (g : list frame) : decimal :=
  sum_dec ((fun f => if decide (res_type f = t) then qty f else Decimal 0)
           <$> g).

Definition bandwidth_query (rows : list frame) (b e : option Z)
    (tenant service : option string) : list bw_row :=
  let q := List.filter (fun f => base_filter b e tenant service f
                          && bool_decide (res_type f ∈ [BW_IN; BW_OUT]))
                       rows in
  (fun '(k, g) =>
     {| bw_begin := k.1.1.1;
        bw_end := k.1.1.2;
        bw_tenant_id := k.1.2;
        bw_unit := k.2;
        bw_in := bandwidth BW_IN g;
        bw_out := bandwidth BW_OUT g |})
  <$> group_by (fun f => (begin f, end_ f, tenant_id f, unit f)) q.

Definition bw_step (t : bw_total) (r : bw_row) : bw_total :=
  {| total_in := dec_add (total_in t) (bw_in r);
     total_out := dec_add (total_out t) (bw_out r);
     total_unit := Some (bw_unit r) |}.

Definition get_bandwidth_hourly_usage (rows : list frame) (b e : option Z)
    (tenant service : option string) : bw_usage :=
  let result := bandwidth_query rows b e tenant service in
  {| data := result;
     total := foldl bw_step
                {| total_in := Decimal 0; total_out := Decimal 0;
                   total_unit := None |} result |}.

End QueryEngine.

(** ** Loop invariants *)

(** What the loop of [get_project_usage] maintains for every tenant: the
    ['total'] key holds the running total, which is the sum of the rates
    listed so far, and every other key holds a list. *)
Definition project_usage_inv (usage : gmap string (gmap string pu_value))
    : Prop :=
  ∀ t tu, usage !! t = Some tu →
    (∃ total, tu !! "total" = Some (PUTotal total)
              ∧ total = entries_rate_sum tu)
    ∧ (∀ k v, tu !! k = Some v → k ≠ "total" → ∃ l, v = PUList l).






(** The dictionary [get_project_usage] appends for a row. *)
Definition project_row_entry (r : project_row) : entry :=
  {| e_qty := pr_qty r; e_unit := pr_unit r; e_rate := pr_rate r |}.

(** ** The rest of the write path *)

(** [_post_commit]: the base class's [_post_commit], which lives in
    [cloudkitty.storage] and is taken as given, then
    [del self._session[tenant_id]]. *)
Definition _post_commit (base_post_commit : string -> M Datatypes.unit)
    (tenant : string) : M Datatypes.unit :=
  base_post_commit tenant ;;
  st ← get_st;
  _ ← subscript (_session st !! tenant) tenant;
  put_st (set_session st (delete tenant (_session st))).

(** The key whose subscript fails first when [_append_time_frame] reads a
    usage record, if any. *)
Definition missing_key (fr : usage_frame) : option string :=
  match u_vol fr with
  | None => Some "vol"
  | Some vol =>
      match v_qty vol, v_unit vol, u_desc fr with
      | None, _, _ => Some "qty"
      | Some _, None, _ => Some "unit"
      | Some _, Some _, None => Some "desc"
      | Some _, Some _, Some _ => None
      end
  end.

(** The row [_append_time_frame] builds from a complete usage record. *)
Definition rated_frame (st : storage) (tenant rtype : string)
    (fr : usage_frame) : option frame :=
  vol ← u_vol fr;
  q ← v_qty vol;
  u ← v_unit vol;
  d ← u_desc fr;
  Some {| tenant_id := tenant; res_type := rtype; unit := u; qty := q;
          rate := default (Decimal 0)
                    (r_price (default (Rating None) (u_rating fr)));
          desc := d;
          begin := usage_start_dt st !! tenant;
          end_ := usage_end_dt st !! tenant |}.

(** The rows a whole batch gives, service after service. *)
Definition rated_frames (st : storage) (tenant : string)
    (data : list (string * list usage_frame)) : list (option frame) :=
  data ≫= (fun '(service, frames) => rated_frame st tenant service <$> frames).

(** The sentinel row of a tenant's period. *)
Definition no_data_frame (st : storage) (tenant : string) : frame :=
  {| tenant_id := tenant; res_type := NO_DATA; unit := "None";
     qty := Decimal 0; rate := Decimal 0; desc := JString "";
     begin := usage_start_dt st !! tenant;
     end_ := usage_end_dt st !! tenant |}.

(** The instance after [fs] were added to the tenant's transaction by
    [_dispatch]. *)
Definition dispatched (st : storage) (tenant : string) (fs : list frame)
    : storage :=
  {| _session := <[tenant := default [] (_session st !! tenant) ++ fs]>
                   (_session st);
     _has_data := match fs with
                  | [] => _has_data st
                  | _ => <[tenant := true]> (_has_data st)
                  end;
     usage_start_dt := usage_start_dt st;
     usage_end_dt := usage_end_dt st;
     table := table st |}.

(** ** get_state *)

(** [ORDER BY begin DESC]: does the value [a] sort strictly before [c]?
    PostgreSQL, whose JSON operators the backend uses, puts NULL first in
    descending order. *)
Definition sorts_before_desc (a c : option Z) : bool :=
  match a, c with
  | None, Some _ => true
  | Some x, Some y => bool_decide (y < x)
  | _, None => false
  end.

(** [q.order_by(begin.desc()).first()] *)
Definition first_desc (q : list frame) : option frame :=
  foldl (fun best f =>
           match best with
           | None => Some f
           | Some c => if sorts_before_desc (begin f) (begin c)
                       then Some f else Some c
           end) None q.

(** [get_state]; [dt2ts] is [ck_utils.dt2ts], applied to the [begin] of the
    row found. *)
Definition get_state {T : Type} (dt2ts : option Z -> T) (rows : list frame)
    (tenant : option string) : option T :=
  (fun r => dt2ts (begin r)) <$> first_desc (List.filter (tenant_filter tenant) rows).

(** ** The no-op billing processor ([cloudkitty/billing/noop.py]) *)

Module Noop.

Section Noop.

(** Values held by an entry are of no concern here, except the empty
    dictionary that [process] stores. *)
Context {V : Type} (empty_dict : V).

(** An element of [data]: a dictionary that may hold, under ['usage'], a
    dictionary from service to the list of its entries, besides other
    keys. *)
Record cur_data : Type := CurData {
  cd_usage : option (gmap string (list (gmap string V)));
  cd_other : gmap string V
}.

Definition enabled : bool := true.

(** [if 'billing' not in entry: entry['billing'] = {}] *)
Definition process_entry (entry : gmap string V) : gmap string V :=
  match entry !! "billing" with
  | Some _ => entry
  | None => <["billing" := empty_dict]> entry
  end.

Fixpoint process (data : list cur_data) : exn + list cur_data :=
  match data with
  | [] => inr []
  | cd :: rest =>
      match cd_usage cd with
      | None => inl (KeyError "usage")
      | Some cur_usage =>
          match process rest with
          | inl e => inl e
          | inr rest' =>
              inr ({| cd_usage :=
                        Some ((fun entries : list (gmap string V) =>
                                 process_entry <$> entries)
                              <$> cur_usage);
                      cd_other := cd_other cd |} :: rest')
          end
      end
  end.

End Noop.

End Noop.

(** ** Sample data *)

Definition st_open_A : storage :=
  {| _session := {["A" := []]}; _has_data := ∅;
     usage_start_dt := {["A" := 0]}; usage_end_dt := {["A" := 3600]};
     table := [] |}.

Definition record_without_qty : usage_frame :=
  {| u_vol := Some (Vol None (Some "hour"));
     u_rating := Some (Rating (Some (Decimal 2)));
     u_desc := Some (JString "") |}.

Definition st_idle_B : storage :=
  {| _session := ∅; _has_data := ∅;
     usage_start_dt := {["B" := 0]}; usage_end_dt := {["B" := 3600]};
     table := [] |}.

Definition st_busy_B : storage :=
  {| _session := {["B" := []]}; _has_data := {["B" := true]};
     usage_start_dt := {["B" := 0]}; usage_end_dt := {["B" := 3600]};
     table := [] |}.

Definition sentinel_B : frame :=
  {| tenant_id := "B"; res_type := "_NO_DATA_"; unit := "None";
     qty := Decimal 0; rate := Decimal 0; desc := JString "";
     begin := Some 0; end_ := Some 3600 |}.

Definition compute_C : frame :=
  {| tenant_id := "C"; res_type := "compute"; unit := "instance";
     qty := Decimal 5; rate := Decimal 1;
     desc := JObject {["instance_id" := Some "u1"; "name" := Some "vm1"]};
     begin := Some 0; end_ := Some 3600 |}.

Definition image_C : frame :=
  {| tenant_id := "C"; res_type := "image"; unit := "image";
     qty := Decimal 2; rate := Decimal 3;
     desc := JObject {["properties.instance_uuid" := Some "u1"]};
     begin := Some 0; end_ := Some 3600 |}.

Definition bw_in_C : frame :=
  {| tenant_id := "C"; res_type := "network.bw.in"; unit := "MB";
     qty := Decimal 100; rate := Decimal 0;
     desc := JObject {["instance_id" := Some "u1";
                       "display_name" := Some "vm1"]};
     begin := Some 0; end_ := Some 3600 |}.

Definition bw_out_C : frame :=
  {| tenant_id := "C"; res_type := "network.bw.out"; unit := "GB";
     qty := Decimal 7; rate := Decimal 0;
     desc := JObject {["instance_id" := Some "u1";
                       "display_name" := Some "vm1"]};
     begin := Some 0; end_ := Some 3600 |}.

Definition sample_rows : list frame :=
  [sentinel_B; compute_C; image_C; bw_in_C; bw_out_C].

Definition record_hour : usage_frame :=
  {| u_vol := Some (Vol (Some (Decimal 1)) (Some "hour"));
     u_rating := Some (Rating (Some (Decimal 2)));
     u_desc := Some (JString "") |}.

Definition noop_data : list (@Noop.cur_data string) :=
  [{| Noop.cd_usage :=
        Some {["compute" := [ {["vol" := "1"]};
                              {["vol" := "2"; "billing" := "rated"]} ]]};
      Noop.cd_other := {["period" := "p"]} |}].

Definition noop_data_without_usage : list (@Noop.cur_data string) :=
  [{| Noop.cd_usage := None; Noop.cd_other := {["period" := "p"]} |}].


(** * Properties *)

(** ** Decimal sums *)

Lemma dec_add_0_l (a : decimal) : dec_add (Decimal 0) a = a.
Proof. apply Qcplus_0_l. Qed.

Lemma dec_add_0_r (a : decimal) : dec_add a (Decimal 0) = a.
Proof. apply Qcplus_0_r. Qed.

Lemma dec_add_comm (a b : decimal) : dec_add a b = dec_add b a.
Proof. apply Qcplus_comm. Qed.

Lemma dec_add_assoc (a b c : decimal) :
  dec_add a (dec_add b c) = dec_add (dec_add a b) c.
Proof. apply Qcplus_assoc. Qed.

Lemma sum_dec_cons (a : decimal) (l : list decimal) :
  sum_dec (a :: l) = dec_add a (sum_dec l).
Proof. done. Qed.

Lemma sum_dec_ext {A} (f g : A -> decimal) (l : list A) :
  (∀ a, a ∈ l → f a = g a) → sum_dec (f <$> l) = sum_dec (g <$> l).
Proof.
  induction l as [|a l IH]; intros Hfg; [done|].
  rewrite !fmap_cons, !sum_dec_cons, (Hfg a), IH; [done| |by left].
  intros a' Ha'. apply Hfg. by right.
Qed.

Lemma sum_dec_app (l1 l2 : list decimal) :
  sum_dec (l1 ++ l2) = dec_add (sum_dec l1) (sum_dec l2).
Proof.
  induction l1 as [|a l1 IH]; simpl.
  - by rewrite dec_add_0_l.
  - fold (sum_dec (l1 ++ l2)). fold (sum_dec l1).
    by rewrite IH, dec_add_assoc.
Qed.

(** ** Grouping *)

Section Grouping.
Context {K A : Type} `{EqDecision K} (key : A -> K).

Lemma group_by_snoc (l : list A) (a : A) :
  group_by key (l ++ [a]) = group_insert (key a) a (group_by key l).
Proof. unfold group_by. by rewrite foldl_app. Qed.

Lemma group_insert_keys (k : K) (a : A) (groups : list (K * list A))
    (k' : K) :
  k' ∈ (group_insert k a groups).*1 ↔ k' = k ∨ k' ∈ groups.*1.
Proof.
  induction groups as [|[k0 g0] rest IH]; simpl.
  - rewrite list_elem_of_singleton. split; [by left|].
    intros [->|Hin]; [done|]. by apply elem_of_nil in Hin.
  - destruct (decide (k = k0)) as [->|Hne]; simpl.
    + split; [by right|]. intros [->|Hin]; [by left|done].
    + rewrite !elem_of_cons, IH. tauto.
Qed.

Lemma group_insert_NoDup (k : K) (a : A) (groups : list (K * list A)) :
  NoDup groups.*1 → NoDup (group_insert k a groups).*1.
Proof.
  induction groups as [|[k0 g0] rest IH]; simpl; intros Hnd.
  - apply NoDup_singleton.
  - destruct (decide (k = k0)) as [->|Hne]; simpl; [done|].
    apply NoDup_cons in Hnd as [Hk0 Hnd].
    apply NoDup_cons. split; [|by apply IH].
    intros [?|?]%group_insert_keys; [congruence|done].
Qed.

Lemma key_of_group (groups : list (K * list A)) (k : K) (g : list A) :
  (k, g) ∈ groups → k ∈ groups.*1.
Proof. intros Hin. apply list_elem_of_fmap. by exists (k, g). Qed.

(** Inserting into the groups: the group of [k] gains [a] at its end, the
    other groups are untouched. *)
Lemma group_insert_lookup (k : K) (a : A) (groups : list (K * list A))
    (k' : K) (g : list A) :
  NoDup groups.*1 →
  (k', g) ∈ group_insert k a groups ↔
    (k' ≠ k ∧ (k', g) ∈ groups)
    ∨ (k' = k ∧ ((∃ g0, (k, g0) ∈ groups ∧ g = g0 ++ [a])
                 ∨ ((k ∉ groups.*1) ∧ g = [a]))).
Proof.
  induction groups as [|[k0 g0] rest IH]; simpl; intros Hnd.
  - rewrite list_elem_of_singleton. split.
    + intros [= -> ->]. right. split; [done|]. right.
      split; [apply not_elem_of_nil|done].
    + intros [[_ H]|[-> [(g0 & H & _)|[_ ->]]]];
        [by apply elem_of_nil in H|by apply elem_of_nil in H|done].
  - apply NoDup_cons in Hnd as [Hk0 Hnd].
    destruct (decide (k = k0)) as [->|Hne].
    + rewrite elem_of_cons. split.
      * intros [[= -> ->]|Hin].
        -- right. split; [done|]. left. exists g0. split; [by left|done].
        -- left. split; [|by right].
           intros ->. apply Hk0. by apply key_of_group in Hin.
      * intros [[Hk Hin]|[-> [(g1 & Hin & ->)|[Hnin _]]]].
        -- apply elem_of_cons in Hin as [[= ? ?]|Hin]; [congruence|by right].
        -- apply elem_of_cons in Hin as [[= ->]|Hin]; [by left|].
           exfalso. apply Hk0. by apply key_of_group in Hin.
        -- exfalso. apply Hnin. by left.
    + rewrite elem_of_cons, (IH Hnd). split.
      * intros [[= -> ->]|[[Hk Hin]|[-> [(g1 & Hin & ->)|[Hnin ->]]]]].
        -- left. split; [congruence|by left].
        -- left. split; [done|by right].
        -- right. split; [done|]. left. exists g1. split; [by right|done].
        -- right. split; [done|]. right. split; [|done].
           intros [?|?]%elem_of_cons; [congruence|done].
      * intros [[Hk Hin]|[-> [(g1 & Hin & ->)|[Hnin ->]]]].
        -- apply elem_of_cons in Hin as [[= -> ->]|Hin]; [by left|].
           right. left. done.
        -- apply elem_of_cons in Hin as [[= ? ?]|Hin]; [congruence|].
           right. right. split; [done|]. left. by exists g1.
        -- right. right. split; [done|]. right. split; [|done].
           intros Hin. apply Hnin. by right.
Qed.

Lemma group_by_NoDup (l : list A) : NoDup (group_by key l).*1.
Proof.
  induction l as [|a l IH] using rev_ind; [apply NoDup_nil_2|].
  rewrite group_by_snoc. by apply group_insert_NoDup.
Qed.

(** The groups partition the rows: the group of a key holds, in order, the
    rows carrying that key, and only keys that occur have a group. *)
Lemma group_by_spec (l : list A) (k : K) (g : list A) :
  (k, g) ∈ group_by key l ↔
    g = List.filter (fun a => bool_decide (key a = k)) l ∧ g ≠ [].
Proof.
  revert g. induction l as [|a l IH] using rev_ind; intros g.
  - simpl. split; [intros H; by apply elem_of_nil in H|by intros [-> ?]].
  - rewrite group_by_snoc, group_insert_lookup by apply group_by_NoDup.
    rewrite List.filter_app. simpl.
    destruct (decide (key a = k)) as [Hk|Hk].
    + subst k. rewrite bool_decide_eq_true_2 by done. split.
      * intros [[Hne _]|[_ [(g0 & Hin & ->)|[Hnin ->]]]]; [congruence| |].
        -- apply IH in Hin as [<- _]. split; [done|]. by destruct g0.
        -- split; [|done]. f_equal.
           destruct (List.filter _ l) as [|x xs] eqn:Hf; [done|].
           exfalso. apply Hnin. apply list_elem_of_fmap.
           exists (key a, x :: xs). split; [done|].
           by apply IH.
      * intros [-> _]. right. split; [done|].
        destruct (List.filter _ l) as [|x xs] eqn:Hf.
        -- right. split; [|done]. intros Hin.
           apply list_elem_of_fmap in Hin as ([k1 g1] & Hk1 & Hin).
           simpl in Hk1. subst k1. apply IH in Hin as [Hg1 Hne].
           done.
        -- left. exists (x :: xs). split; [|done]. by apply IH.
    + rewrite bool_decide_eq_false_2 by done. rewrite app_nil_r, IH.
      split.
      * intros [[_ H]|[-> _]]; done.
      * intros H. left. split; [congruence|done].
Qed.

Lemma group_by_elem (l : list A) (a : A) :
  a ∈ l → ∃ g, (key a, g) ∈ group_by key l ∧ a ∈ g.
Proof.
  intros Hin.
  assert (Hg : a ∈ List.filter (fun x => bool_decide (key x = key a)) l).
  { apply list_elem_of_In, List.filter_In. split; [by apply list_elem_of_In|].
    by apply bool_decide_eq_true_2. }
  eexists. split; [|exact Hg].
  apply group_by_spec. split; [done|]. intros Heq. rewrite Heq in Hg.
  by apply elem_of_nil in Hg.
Qed.

Lemma group_by_sound (l : list A) (k : K) (g : list A) (a : A) :
  (k, g) ∈ group_by key l → a ∈ g → a ∈ l ∧ key a = k.
Proof.
  intros [-> _]%group_by_spec Hin.
  apply list_elem_of_In, List.filter_In in Hin as [Hin Hk].
  split; [by apply list_elem_of_In|by apply bool_decide_eq_true_1 in Hk].
Qed.

Lemma group_by_nil_iff (l : list A) : group_by key l = [] ↔ l = [].
Proof.
  split; [|by intros ->].
  destruct l as [|a l]; [done|]. intros Hnil.
  destruct (group_by_elem (a :: l) a) as (g & Hin & _); [by left|].
  rewrite Hnil in Hin. by apply elem_of_nil in Hin.
Qed.

End Grouping.

(** ** Write path *)

Lemma set_session_id (st : storage) : set_session st (_session st) = st.
Proof. by destruct st. Qed.

Lemma check_session_run (tenant : string) (st : storage) :
  _check_session tenant st =
    (inr tt, set_session st
               (<[tenant := default [] (_session st !! tenant)]> (_session st))).
Proof.
  unfold _check_session, mbind, M_bind, bind, get_st, put_st, ret. simpl.
  destruct (_session st !! tenant) as [pending|] eqn:Hs; simpl; [|done].
  by rewrite insert_id, set_session_id.
Qed.

(** A well-formed record is added at the end of the tenant's open
    transaction; nothing else changes. *)
Lemma append_time_frame_run (rtype : string) (fr : usage_frame)
    (tenant : string) (st : storage) (q : decimal) (u : string)
    (d : json) (pending : list frame) :
  u_vol fr = Some (Vol (Some q) (Some u)) →
  u_desc fr = Some d →
  _session st !! tenant = Some pending →
  _append_time_frame rtype fr tenant st =
    (inr tt,
     set_session st
       (<[tenant := pending ++
            [{| tenant_id := tenant; res_type := rtype; unit := u; qty := q;
                rate := match r_price (default (Rating None) (u_rating fr)) with
                        | Some p => if dec_truthy p then p else Decimal 0
                        | None => Decimal 0
                        end;
                desc := d;
                begin := usage_start_dt st !! tenant;
                end_ := usage_end_dt st !! tenant |}]]> (_session st))).
Proof.
  intros Hvol Hdesc Hs.
  unfold _append_time_frame, add_time_frame, mbind, M_bind, bind, subscript,
    get_st, put_st, ret.
  rewrite Hvol, Hdesc. simpl. by rewrite Hs.
Qed.

(** C4 (as the code has it): a usage record whose volume lacks [qty] or
    [unit] makes [_append_time_frame] raise the dictionary's [KeyError] for
    the first missing key, and the instance is left as it was: no frame is
    added to any session. *)
Theorem append_time_frame_missing_volume (rtype : string) (fr : usage_frame)
    (tenant : string) (st : storage) (vol : vol_dict) :
  u_vol fr = Some vol →
  v_qty vol = None ∨ v_unit vol = None →
  _append_time_frame rtype fr tenant st =
    (inl (KeyError (match v_qty vol with
                    | None => "qty"
                    | Some _ => "unit"
                    end)), st).
Proof.
  intros Hvol Hmiss.
  unfold _append_time_frame, mbind, M_bind, bind, subscript, raise, ret.
  rewrite Hvol. simpl.
  destruct (v_qty vol) as [q|]; simpl; [|done].
  destruct Hmiss as [Hq|Hu]; [done|]. by rewrite Hu.
Qed.

(** C5: [_pre_commit] adds exactly one [_NO_DATA_] frame, with quantity 0,
    unit "None" and rate 0, to the tenant's transaction when the tenant has no
    data in the period, and adds nothing when it has; the commit that follows
    writes the transaction, sentinel included, to the table. *)
Theorem pre_commit_sentinel (tenant : string) (st : storage) :
  let pending := default [] (_session st !! tenant) in
  let sentinel :=
    {| tenant_id := tenant; res_type := "_NO_DATA_"; unit := "None";
       qty := Decimal 0; rate := Decimal 0; desc := JString "";
       begin := usage_start_dt st !! tenant;
       end_ := usage_end_dt st !! tenant |} in
  (default false (_has_data st !! tenant) = false →
     _pre_commit tenant st =
       (inr tt, set_session st (<[tenant := pending ++ [sentinel]]> (_session st)))
     ∧ table ((_pre_commit tenant ;; _commit tenant) st).2
       = table st ++ pending ++ [sentinel])
  ∧ (default false (_has_data st !! tenant) = true →
     _pre_commit tenant st =
       (inr tt, set_session st (<[tenant := pending]> (_session st)))
     ∧ table ((_pre_commit tenant ;; _commit tenant) st).2
       = table st ++ pending).
Proof.
  intros pending sentinel.
  assert (Hpre : ∀ st', _pre_commit tenant st' =
            (let st1 := (_check_session tenant st').2 in
             if default false (_has_data st1 !! tenant)
             then (inr tt, st1)
             else _append_time_frame NO_DATA empty_frame tenant st1)).
  { intros st'. unfold _pre_commit, mbind, M_bind, bind, get_st, ret.
    rewrite check_session_run. simpl. by destruct (default false _). }
  assert (Hcommit : ∀ l, _commit tenant
            (set_session st (<[tenant := l]> (_session st))) =
            (inr tt, set_table (set_session st (<[tenant := []]> (_session st)))
                               (table st ++ l))).
  { intros l. unfold _commit, mbind, M_bind, bind, subscript, get_st, put_st, ret.
    simpl. rewrite lookup_insert_eq. simpl. by rewrite insert_insert_eq. }
  split; intros Hdata.
  - assert (Hrun : _pre_commit tenant st =
        (inr tt, set_session st (<[tenant := pending ++ [sentinel]]> (_session st)))).
    { rewrite Hpre, check_session_run. simpl. rewrite Hdata.
      erewrite append_time_frame_run; [|reflexivity|reflexivity|].
      2:{ simpl. apply lookup_insert_eq. }
      simpl. unfold set_session. simpl. by rewrite insert_insert_eq. }
    split; [done|].
    change ((_pre_commit tenant ;; _commit tenant) st)
      with (bind (_pre_commit tenant) (fun _ => _commit tenant) st).
    unfold bind. rewrite Hrun, Hcommit. simpl. by rewrite app_assoc.
  - assert (Hrun : _pre_commit tenant st =
        (inr tt, set_session st (<[tenant := pending]> (_session st)))).
    { rewrite Hpre, check_session_run. simpl. by rewrite Hdata. }
    split; [done|].
    change ((_pre_commit tenant ;; _commit tenant) st)
      with (bind (_pre_commit tenant) (fun _ => _commit tenant) st).
    unfold bind. by rewrite Hrun, Hcommit.
Qed.


(** ** Write path: the whole transaction protocol *)

Ltac run_M :=
  unfold mbind, M_bind, bind, get_st, put_st, ret, raise, subscript; simpl.

Lemma bind_run {A B} (m : M A) (k : A -> M B) (st : storage) :
  (m ≫= k) st
  = match m st with
    | (inr a, st') => k a st'
    | (inl e, st') => (inl e, st')
    end.
Proof. done. Qed.

Lemma missing_key_rated (st : storage) (tenant rtype : string)
    (fr : usage_frame) :
  missing_key fr = None ↔ is_Some (rated_frame st tenant rtype fr).
Proof.
  unfold missing_key, rated_frame.
  destruct (u_vol fr) as [[[q|] [u|]]|]; simpl;
    destruct (u_desc fr); simpl; split; try done;
    by intros [? ?].
Qed.

Lemma price_falsy_default (p : option decimal) :
  match p with
  | Some x => if dec_truthy x then x else Decimal 0
  | None => Decimal 0
  end = default (Decimal 0) p.
Proof.
  destruct p as [x|]; [|done]. unfold dec_truthy. simpl.
  by destruct (Qc_eq_dec x (Decimal 0)).
Qed.

(** X1: [_append_time_frame] raises [KeyError] for the first of 'vol', 'qty',
    'unit', 'desc' that the record lacks, then [KeyError] for the tenant when
    the tenant has no open session; in all these cases the instance is
    unchanged.  Otherwise it adds one row at the end of the tenant's open
    transaction, whose rate is the record's price, read as 0 when there is no
    rating or no price. *)
Theorem append_time_frame_spec (rtype : string) (fr : usage_frame)
    (tenant : string) (st : storage) :
  _append_time_frame rtype fr tenant st =
    match missing_key fr, rated_frame st tenant rtype fr,
          _session st !! tenant with
    | Some k, _, _ => (inl (KeyError k), st)
    | None, Some f, Some pending =>
        (inr tt, set_session st (<[tenant := pending ++ [f]]> (_session st)))
    | None, _, _ => (inl (KeyError tenant), st)
    end.
Proof.
  unfold _append_time_frame, add_time_frame, missing_key, rated_frame.
  run_M.
  destruct (u_vol fr) as [[[q|] [u|]]|]; simpl; try done.
  destruct (u_desc fr) as [d|]; simpl; [|done].
  rewrite price_falsy_default.
  by destruct (_session st !! tenant).
Qed.

(** X2: [_check_session] never discards rows: it keeps the open transaction
    of every tenant as it is, opens an empty one for the tenant when there is
    none, and calling it again changes nothing. *)
Theorem check_session_keeps (tenant : string) (st : storage) :
  (_check_session tenant st).1 = inr tt
  ∧ _session (_check_session tenant st).2 !! tenant
    = Some (default [] (_session st !! tenant))
  ∧ (∀ t pending, _session st !! t = Some pending →
       _session (_check_session tenant st).2 !! t = Some pending)
  ∧ (_check_session tenant ;; _check_session tenant) st
    = _check_session tenant st.
Proof.
  assert (Htwice : ∀ s, _check_session tenant (_check_session tenant s).2
                        = _check_session tenant s).
  { intros s. rewrite !check_session_run. simpl.
    rewrite lookup_insert_eq. simpl. unfold set_session. simpl.
    by rewrite insert_insert_eq. }
  split; [by rewrite check_session_run|].
  split; [rewrite check_session_run; simpl; apply lookup_insert_eq|].
  split.
  - intros t pending Ht. rewrite check_session_run. simpl.
    destruct (decide (tenant = t)) as [->|Hne].
    + by rewrite lookup_insert_eq, Ht.
    + by rewrite lookup_insert_ne.
  - rewrite bind_run. specialize (Htwice st).
    destruct (_check_session tenant st) as [[e|[]] st'] eqn:Hrun.
    + by rewrite check_session_run in Hrun.
    + exact Htwice.
Qed.

(** *** Loops in the monad *)


Lemma for_each_app {A} (l1 l2 : list A) (body : A -> M Datatypes.unit)
    (st : storage) :
  for_each (l1 ++ l2) body st
  = match for_each l1 body st with
    | (inr _, st') => for_each l2 body st'
    | (inl e, st') => (inl e, st')
    end.
Proof.
  revert st. induction l1 as [|a l1 IH]; intros st; [done|].
  simpl. rewrite !bind_run.
  destruct (body a st) as [[e|[]] st']; [done|]. apply IH.
Qed.

(** The two nested loops of [_dispatch] visit the records of the batch in
    one sequence. *)
Lemma for_each_nested {A B} (data : list (A * list B))
    (body : A -> B -> M Datatypes.unit) (st : storage) :
  for_each data (fun '(s, frames) => for_each frames (body s)) st
  = for_each (data ≫= (fun '(s, frames) => pair s <$> frames))
             (fun '(s, fr) => body s fr) st.
Proof.
  revert st. induction data as [|[s frames] data IH]; intros st; [done|].
  simpl. rewrite for_each_app, bind_run.
  assert (Hin : ∀ st0, for_each (pair s <$> frames)
                         (fun '(s, fr) => body s fr) st0
                       = for_each frames (body s) st0).
  { clear. induction frames as [|fr frames IHf]; intros st0; [done|].
    simpl. rewrite !bind_run.
    destruct (body s fr st0) as [[e|[]] st1]; [done|]. apply IHf. }
  rewrite Hin. destruct (for_each frames (body s) st) as [[e|[]] st']; [done|].
  apply IH.
Qed.

Lemma rated_frames_flat (st : storage) (tenant : string)
    (data : list (string * list usage_frame)) :
  rated_frames st tenant data
  = (fun '(s, fr) => rated_frame st tenant s fr)
    <$> (data ≫= (fun '(s, frames) => pair s <$> frames)).
Proof.
  unfold rated_frames. induction data as [|[s frames] data IH]; [done|].
  rewrite !bind_cons, fmap_app, <- IH. f_equal.
  by rewrite <- list_fmap_compose.
Qed.

Lemma dispatched_snoc (st : storage) (tenant : string) (fs : list frame)
    (f : frame) :
  set_has_data
    (set_session (dispatched st tenant fs)
       (<[tenant := (default [] (_session st !! tenant) ++ fs) ++ [f]]>
          (_session (dispatched st tenant fs))))
    (<[tenant := true]> (_has_data (dispatched st tenant fs)))
  = dispatched st tenant (fs ++ [f]).
Proof.
  unfold dispatched, set_has_data, set_session. simpl.
  rewrite insert_insert_eq, app_assoc. f_equal.
  destruct fs as [|f0 fs]; simpl; [done|]. by rewrite insert_insert_eq.
Qed.

(** One turn of the inner loop of [_dispatch], from the instance reached
    after [fs] were added. *)
Lemma dispatch_body_run (st : storage) (tenant service : string)
    (fr : usage_frame) (fs : list frame) :
  (_append_time_frame service fr tenant ;;
   st' ← get_st;
   put_st (set_has_data st' (<[tenant := true]> (_has_data st'))))
    (dispatched st tenant fs)
  = match rated_frame st tenant service fr with
    | Some f => (inr tt, dispatched st tenant (fs ++ [f]))
    | None => (inl (KeyError (default "" (missing_key fr))),
               dispatched st tenant fs)
    end.
Proof.
  rewrite bind_run, append_time_frame_spec.
  assert (Hr : rated_frame (dispatched st tenant fs) tenant service fr
               = rated_frame st tenant service fr) by done.
  rewrite Hr.
  assert (Hs : _session (dispatched st tenant fs) !! tenant
               = Some (default [] (_session st !! tenant) ++ fs))
    by apply lookup_insert_eq.
  rewrite Hs.
  destruct (missing_key fr) as [k|] eqn:Hk.
  - destruct (rated_frame st tenant service fr) as [f|] eqn:Hf; [|done].
    assert (is_Some (rated_frame st tenant service fr)) as Hsome by eauto.
    apply missing_key_rated in Hsome. congruence.
  - destruct (proj1 (missing_key_rated st tenant service fr) Hk) as [f Hf].
    rewrite Hf, bind_run. unfold get_st, put_st.
    by rewrite <- dispatched_snoc.
Qed.

Lemma dispatch_loop_run (st : storage) (tenant : string)
    (items : list (string * usage_frame)) (fs : list frame) :
  ∃ done_ rest,
    (fun '(s, fr) => rated_frame st tenant s fr) <$> items
    = (Some <$> done_) ++ rest
    ∧ ((rest = []
        ∧ for_each items
            (fun '(s, fr) =>
               _append_time_frame s fr tenant ;;
               st' ← get_st;
               put_st (set_has_data st' (<[tenant := true]> (_has_data st'))))
            (dispatched st tenant fs)
          = (inr tt, dispatched st tenant (fs ++ done_)))
       ∨ (∃ k rest', rest = None :: rest'
          ∧ for_each items
              (fun '(s, fr) =>
                 _append_time_frame s fr tenant ;;
                 st' ← get_st;
                 put_st (set_has_data st' (<[tenant := true]> (_has_data st'))))
              (dispatched st tenant fs)
            = (inl (KeyError k), dispatched st tenant (fs ++ done_)))).
Proof.
  revert fs. induction items as [|[s fr] items IH]; intros fs.
  - exists [], []. split; [done|]. left. by rewrite app_nil_r.
  - cbn [for_each]. rewrite fmap_cons.
    pose proof (dispatch_body_run st tenant s fr fs) as Hbody.
    rewrite (bind_run _ _ (dispatched st tenant fs)).
    destruct (rated_frame st tenant s fr) as [f|] eqn:Hf.
    + destruct (IH (fs ++ [f])) as (done_ & rest & Hsplit & Hrun).
      exists (f :: done_), rest. split; [by rewrite Hsplit|].
      rewrite Hbody, <- !app_assoc in *. exact Hrun.
    + exists [], (None :: ((fun '(s, fr) => rated_frame st tenant s fr)
                            <$> items)).
      split; [done|]. right. eexists _, _. split; [done|].
      rewrite Hbody. by rewrite app_nil_r.
Qed.

Lemma check_session_dispatched (tenant : string) (st : storage) :
  _check_session tenant st = (inr tt, dispatched st tenant []).
Proof.
  rewrite check_session_run. unfold dispatched, set_session.
  by rewrite app_nil_r.
Qed.

Lemma dispatch_run (data : list (string * list usage_frame))
    (tenant : string) (st : storage) :
  ∃ fs rest,
    rated_frames st tenant data = (Some <$> fs) ++ rest
    ∧ (_dispatch data tenant st).2 = dispatched st tenant fs
    ∧ ((rest = [] ∧ (_dispatch data tenant st).1 = inr tt)
       ∨ (∃ k rest', rest = None :: rest'
                     ∧ (_dispatch data tenant st).1 = inl (KeyError k))).
Proof.
  unfold _dispatch. rewrite bind_run, check_session_dispatched.
  rewrite (for_each_nested data
             (fun service fr =>
                _append_time_frame service fr tenant ;;
                st' ← get_st;
                put_st (set_has_data st' (<[tenant := true]> (_has_data st'))))).
  rewrite rated_frames_flat.
  destruct (dispatch_loop_run st tenant
              (data ≫= (fun '(s, frames) => pair s <$> frames)) [])
    as (fs & rest & Hsplit & [[-> Hrun]|(k & rest' & -> & Hrun)]).
  - exists fs, []. split; [done|]. rewrite Hrun. split; [done|]. by left.
  - exists fs, (None :: rest'). split; [done|]. rewrite Hrun.
    split; [done|]. right. by exists k, rest'.
Qed.

(** X3: [_dispatch] adds the rows of the batch, in order, to the end of the
    tenant's open transaction (opening one if needed) and stops at the first
    record it cannot read: it then raises [KeyError] and the rows of the
    records before it stay in the transaction.  [_has_data] is set for the
    tenant as soon as one row was added, and is left alone by an empty
    batch. *)
Theorem dispatch_effect (data : list (string * list usage_frame))
    (tenant : string) (st : storage) :
  ∃ fs rest,
    rated_frames st tenant data = (Some <$> fs) ++ rest
    ∧ (_dispatch data tenant st).2 = dispatched st tenant fs
    ∧ ((rest = [] ∧ (_dispatch data tenant st).1 = inr tt)
       ∨ (∃ k rest', rest = None :: rest'
                     ∧ (_dispatch data tenant st).1 = inl (KeyError k))).
Proof.
  destruct (dispatch_run data tenant st) as (fs & rest & Hsplit & Hst & Hres).
  exists fs, rest. split; [exact Hsplit|]. split; [exact Hst|exact Hres].
Qed.

Lemma pre_commit_run (tenant : string) (st : storage) :
  _pre_commit tenant st =
    (inr tt,
     set_session st
       (<[tenant := default [] (_session st !! tenant)
                    ++ (if default false (_has_data st !! tenant) then []
                        else [no_data_frame st tenant])]> (_session st))).
Proof.
  unfold _pre_commit. rewrite bind_run, check_session_run, bind_run.
  unfold get_st. simpl.
  destruct (default false (_has_data st !! tenant)).
  - by rewrite app_nil_r.
  - rewrite append_time_frame_spec. simpl. rewrite lookup_insert_eq.
    unfold set_session. simpl. by rewrite insert_insert_eq.
Qed.

Lemma commit_run (tenant : string) (st : storage) :
  _commit tenant st =
    match _session st !! tenant with
    | Some pending =>
        (inr tt, set_table (set_session st (<[tenant := []]> (_session st)))
                           (table st ++ pending))
    | None => (inl (KeyError tenant), st)
    end.
Proof.
  unfold _commit. rewrite bind_run. unfold get_st. rewrite bind_run.
  by destruct (_session st !! tenant).
Qed.

(** X4: rows reach the table through [_commit] only: [_dispatch] and
    [_pre_commit] leave the table as it is, whether they return or raise, and
    [_commit] keeps every row already there, in place, adding the rows of the
    transaction after them. *)
Theorem table_grows_by_commit_only (data : list (string * list usage_frame))
    (tenant : string) (st : storage) :
  table (_dispatch data tenant st).2 = table st
  ∧ table (_pre_commit tenant st).2 = table st
  ∧ table (_commit tenant st).2
    = table st ++ default [] (_session st !! tenant).
Proof.
  split; [|split].
  - destruct (dispatch_run data tenant st) as (fs & rest & _ & -> & _).
    done.
  - by rewrite pre_commit_run.
  - rewrite commit_run. destruct (_session st !! tenant); simpl; [done|].
    by rewrite app_nil_r.
Qed.



(** X6: a whole period for a tenant, [_dispatch] of a batch whose records are
    all complete, then [_pre_commit], then [_commit]: the table gains the
    rows that were pending, then the rows of the batch in order, then the
    sentinel row if and only if the batch was empty and [_has_data] was not
    set for the tenant; the transaction is left empty. *)
Theorem commit_cycle (data : list (string * list usage_frame))
    (tenant : string) (st : storage) (fs : list frame) :
  rated_frames st tenant data = Some <$> fs →
  let st' := ((_dispatch data tenant ;; _pre_commit tenant ;;
               _commit tenant) st).2 in
  ((_dispatch data tenant ;; _pre_commit tenant ;; _commit tenant) st).1
    = inr tt
  ∧ table st'
    = table st ++ default [] (_session st !! tenant) ++ fs
      ++ (match fs with
          | [] => if default false (_has_data st !! tenant) then []
                  else [no_data_frame st tenant]
          | _ => []
          end)
  ∧ _session st' !! tenant = Some [].
Proof.
  intros Hdata.
  destruct (dispatch_run data tenant st)
    as (fs' & rest & Hsplit & Hst & Hres).
  assert (fs' = fs ∧ rest = []) as [-> ->].
  { rewrite Hdata in Hsplit.
    destruct Hres as [[-> _]|(k & rest' & -> & _)].
    - rewrite app_nil_r in Hsplit.
      split; [|done]. symmetry.
      by apply (inj (fmap Some)) in Hsplit.
    - exfalso.
      assert (Hin : None ∈ Some <$> fs).
      { rewrite Hsplit. apply elem_of_app. right. by left. }
      by apply list_elem_of_fmap in Hin as (? & ? & _). }
  destruct Hres as [[_ Hok]|(k & rest' & ? & _)]; [|done].
  simpl. rewrite bind_run.
  destruct (_dispatch data tenant st) as [r st1]. simpl in *. subst r st1.
  rewrite bind_run, pre_commit_run, commit_run. simpl.
  rewrite !lookup_insert_eq. simpl. rewrite lookup_insert_eq.
  split; [done|]. split; [|done].
  rewrite <- !app_assoc. do 3 f_equal.
  destruct fs as [|f fs]; simpl; [done|].
  by rewrite lookup_insert_eq.
Qed.

Lemma commit_cycle_witness :
  table ((_dispatch [] "B" ;; _pre_commit "B" ;; _commit "B") st_idle_B).2
  = [sentinel_B].
Proof.
  pose proof (commit_cycle [] "B" st_idle_B [] eq_refl) as (_ & Htable & _).
  exact Htable.
Defined.

(** X7: after a [_post_commit] that returns, the tenant has no session left,
    whatever the base class's part did, so the next [_check_session] opens an
    empty transaction; when the base part leaves no session to delete,
    [_post_commit] raises [KeyError]. *)
Theorem post_commit_closes_session
    (base_post_commit : string -> M Datatypes.unit)
    (tenant : string) (st : storage) :
  ((_post_commit base_post_commit tenant st).1 = inr tt →
     _session (_post_commit base_post_commit tenant st).2 !! tenant = None
     ∧ _session ((_post_commit base_post_commit tenant ;;
                  _check_session tenant) st).2 !! tenant = Some [])
  ∧ ((base_post_commit tenant st).1 = inr tt →
     _session (base_post_commit tenant st).2 !! tenant = None →
     (_post_commit base_post_commit tenant st).1 = inl (KeyError tenant)).
Proof.
  unfold _post_commit. rewrite !bind_run.
  destruct (base_post_commit tenant st) as [[e|[]] st1]; simpl.
  - split; [done|]. done.
  - rewrite bind_run. unfold get_st. rewrite bind_run.
    destruct (_session st1 !! tenant) as [pending|] eqn:Hs; simpl.
    + split; [|by intros _ ?]. intros _.
      split; [apply lookup_delete_eq|].
      rewrite check_session_run. simpl.
      by rewrite lookup_insert_eq, lookup_delete_eq.
    + split; [done|]. done.
Qed.

Lemma post_commit_closes_session_witness :
  _session (_post_commit (fun _ => ret tt) "A" st_open_A).2 !! "A" = None
  ∧ (_post_commit (fun _ => ret tt) "B" st_idle_B).1 = inl (KeyError "B").
Proof.
  split.
  - apply (proj1 (post_commit_closes_session (fun _ => ret tt) "A"
                    st_open_A)). reflexivity.
  - apply (proj2 (post_commit_closes_session (fun _ => ret tt) "B"
                    st_idle_B)); reflexivity.
Defined.

(** ** Filters *)

Lemma filter_filter_and {A} (p q : A -> bool) (l : list A) :
  List.filter p (List.filter q l) = List.filter (fun x => q x && p x) l.
Proof.
  induction l as [|a l IH]; [done|]. simpl.
  destruct (q a); simpl; [|done]. destruct (p a); by rewrite IH.
Qed.

Lemma filter_filter_sub {A} (p q : A -> bool) (l : list A) :
  (∀ x, p x = true → q x = true) →
  List.filter p (List.filter q l) = List.filter p l.
Proof.
  intros Hsub. rewrite filter_filter_and. apply List.filter_ext.
  intros x. destruct (p x) eqn:Hp; [by rewrite (Hsub x Hp)|by destruct (q x)].
Qed.

Lemma filter_nil_iff {A} (p : A -> bool) (l : list A) :
  List.filter p l = [] ↔ ∀ x, x ∈ l → p x = false.
Proof.
  induction l as [|a l IH]; simpl.
  - split; [intros _ x Hx; by apply elem_of_nil in Hx|done].
  - destruct (p a) eqn:Hp.
    + split; [done|]. intros H. specialize (H a). rewrite Hp in H.
      by discriminate H; left.
    + rewrite IH. split.
      * intros H x [->|Hx]%elem_of_cons; [done|by apply H].
      * intros H x Hx. apply H. by right.
Qed.

Lemma in_window_spec (wb we : Z) (f : frame) :
  in_window wb we f = true ↔
    ∃ fb fe, begin f = Some fb ∧ end_ f = Some fe ∧ wb ≤ fb ∧ fe ≤ we.
Proof.
  unfold in_window, col_ge, col_le. rewrite andb_true_iff.
  destruct (begin f) as [fb|], (end_ f) as [fe|];
    rewrite ?bool_decide_eq_true; split.
  - intros [? ?]. by exists fb, fe.
  - by intros (? & ? & [= <-] & [= <-] & ? & ?).
  - by intros [_ ?].
  - by intros (? & ? & _ & ? & _).
  - by intros [? _].
  - by intros (? & ? & ? & _).
  - by intros [? _].
  - by intros (? & ? & ? & _).
Qed.

Section QueryProperties.
Context (get_month_start get_next_month : Z).
Context {R : Type} (to_cloudkitty : frame -> R).

Lemma base_filter_in_window (b e : option Z) (tenant service : option string)
    (f : frame) :
  base_filter get_month_start get_next_month b e tenant service f = true →
  in_window (default get_month_start b) (default get_next_month e) f = true.
Proof. unfold base_filter. by intros [_ ?]%andb_true_iff. Qed.


Lemma apply_filters_where (items : list (column * cell)) (q : list frame) :
  apply_filters items q =
    List.filter (fun f => forallb (fun '(filter_name, filter_value) =>
                                     if cell_truthy filter_value
                                     then col_eq filter_name filter_value f
                                     else true) items) q.
Proof.
  revert q. induction items as [|[n v] items IH]; intros q; simpl.
  - induction q as [|a q IHq]; [done|]. simpl. by rewrite <- IHq.
  - unfold apply_filters in *. rewrite IH.
    destruct (cell_truthy v); [|done].
    by rewrite filter_filter_and.
Qed.

Lemma get_time_frame_where (rows : list frame) (b e : Z)
    (filters : gmap column cell) :
  get_time_frame to_cloudkitty rows b e filters =
    match List.filter (time_frame_where b e filters) rows with
    | [] => inl NoTimeFrame
    | q => inr (to_cloudkitty <$> q)
    end.
Proof.
  unfold get_time_frame. rewrite apply_filters_where, filter_filter_and.
  destruct (cell_truthy (default CNone (filters !! col_res_type))) eqn:Ht.
  - rewrite (List.filter_ext _ (time_frame_where b e filters)).
    + by destruct (List.filter _ rows).
    + intros f. unfold time_frame_where. by rewrite Ht, andb_true_r.
  - rewrite filter_filter_and.
    rewrite (List.filter_ext _ (time_frame_where b e filters)).
    + by destruct (List.filter _ rows).
    + intros f. unfold time_frame_where. by rewrite Ht.
Qed.

Lemma col_eq_truthy (c : column) (v : cell) (f : frame) :
  cell_truthy v = true → (col_eq c v f = true ↔ getattr c f = v).
Proof.
  intros Hv. unfold col_eq.
  destruct (getattr c f) eqn:Hg; rewrite ?bool_decide_eq_true; try done.
  split; [done|]. intros <-. done.
Qed.

Lemma time_frame_where_spec (b e : Z) (filters : gmap column cell)
    (f : frame) :
  time_frame_where b e filters f = true ↔
    (∃ fb fe, begin f = Some fb ∧ end_ f = Some fe ∧ b ≤ fb ∧ fe ≤ e)
    ∧ (∀ name value, filters !! name = Some value →
         cell_truthy value = true → getattr name f = value)
    ∧ (cell_truthy (default CNone (filters !! col_res_type)) = false →
         res_type f ≠ "_NO_DATA_").
Proof.
  unfold time_frame_where.
  rewrite !andb_true_iff, in_window_spec, forallb_forall.
  split.
  - intros [[Hw Hall] Hs]. split; [done|]. split.
    + intros c v Hc Hv.
      specialize (Hall (c, v)). simpl in Hall. rewrite Hv in Hall.
      apply col_eq_truthy; [done|]. apply Hall.
      by apply list_elem_of_In, elem_of_map_to_list.
    + intros Ht. rewrite Ht in Hs. unfold is_sentinel, NO_DATA in Hs.
      by destruct (decide _).
  - intros (Hw & Hall & Hs). split; [split; [done|]|].
    + intros [c v] Hin%list_elem_of_In%elem_of_map_to_list.
      destruct (cell_truthy v) eqn:Hv; [|done].
      apply col_eq_truthy; [done|]. by apply Hall.
    + destruct (cell_truthy _); [done|].
      unfold is_sentinel, NO_DATA. destruct (decide _); [|done].
      by destruct Hs.
Qed.


(** C2 (as the code has it): [get_tenants] lists, without repetition, the
    tenants that own at least one frame inside the window, whatever its
    resource type, sentinel frames included. *)
Theorem get_tenants_spec (rows : list frame) (b e : option Z) :
  NoDup (get_tenants get_month_start get_next_month rows b e)
  ∧ ∀ t, t ∈ get_tenants get_month_start get_next_month rows b e ↔
      ∃ f fb fe, f ∈ rows ∧ tenant_id f = t
                 ∧ begin f = Some fb ∧ end_ f = Some fe
                 ∧ default get_month_start b ≤ fb
                 ∧ fe ≤ default get_next_month e.
Proof.
  unfold get_tenants. split; [apply NoDup_remove_dups|].
  intros t. rewrite elem_of_remove_dups, list_elem_of_fmap. split.
  - intros (f & -> & Hin).
    apply list_elem_of_In, List.filter_In in Hin as [Hin Hw].
    apply in_window_spec in Hw as (fb & fe & ? & ? & ? & ?).
    exists f, fb, fe. by rewrite list_elem_of_In.
  - intros (f & fb & fe & Hin & <- & Hb & He & ? & ?).
    exists f. split; [done|].
    apply list_elem_of_In, List.filter_In. split; [by apply list_elem_of_In|].
    apply in_window_spec. by exists fb, fe.
Qed.

(** *** Bandwidth totals *)

Lemma foldl_bw_step (acc : bw_total) (l : list bw_row) :
  total_in (foldl bw_step acc l)
    = dec_add (total_in acc) (sum_dec (bw_in <$> l))
  ∧ total_out (foldl bw_step acc l)
    = dec_add (total_out acc) (sum_dec (bw_out <$> l))
  ∧ total_unit (foldl bw_step acc l)
    = match last l with
      | Some r => Some (bw_unit r)
      | None => total_unit acc
      end.
Proof.
  revert acc. induction l as [|r l IH]; intros acc; simpl.
  - by rewrite !dec_add_0_r.
  - destruct (IH (bw_step acc r)) as (Hin & Hout & Hunit).
    rewrite Hin, Hout, Hunit. simpl.
    fold (sum_dec (bw_in <$> l)). fold (sum_dec (bw_out <$> l)).
    rewrite !dec_add_assoc. split; [done|]. split; [done|].
    rewrite last_cons. by destruct (last l).
Qed.


(** C10: when no row matches, the total holds the two bandwidth keys, both
    zero, and no unit; otherwise its unit is the one of the last row of
    [data]. *)
Theorem bandwidth_total_unit (rows : list frame) (b e : option Z)
    (tenant service : option string) :
  let usage := get_bandwidth_hourly_usage get_month_start get_next_month
                 rows b e tenant service in
  (data usage = [] ↔
     ∀ f, f ∈ rows →
       base_filter get_month_start get_next_month b e tenant service f
       && bool_decide (res_type f ∈ ["network.bw.in"; "network.bw.out"])
       = false)
  ∧ (data usage = [] →
       total usage = {| total_in := Decimal 0; total_out := Decimal 0;
                        total_unit := None |})
  ∧ (∀ r, last (data usage) = Some r →
       total_unit (total usage) = Some (bw_unit r)).
Proof.
  simpl. unfold get_bandwidth_hourly_usage. simpl. split; [|split].
  - unfold bandwidth_query. split.
    + intros H%fmap_nil_inv%group_by_nil_iff. by apply filter_nil_iff.
    + intros H. apply filter_nil_iff in H. unfold BW_IN, BW_OUT.
      by rewrite H.
  - by intros ->.
  - intros r Hlast.
    destruct (foldl_bw_step
                {| total_in := Decimal 0; total_out := Decimal 0;
                   total_unit := None |}
                (bandwidth_query get_month_start get_next_month
                   rows b e tenant service)) as (_ & _ & Hunit).
    by rewrite Hunit, Hlast.
Qed.

(** *** The window filter *)


(** *** Sentinel rows *)

Lemma bw_type_not_sentinel (f : frame) :
  bool_decide (res_type f ∈ [BW_IN; BW_OUT]) = true →
  negb (is_sentinel f) = true.
Proof.
  intros Hin%bool_decide_eq_true. unfold is_sentinel.
  destruct (decide (res_type f = NO_DATA)) as [Heq|]; [|done].
  rewrite Heq in Hin. exfalso.
  apply elem_of_cons in Hin as [Hin|Hin]; [discriminate Hin|].
  apply elem_of_cons in Hin as [Hin|Hin]; [discriminate Hin|].
  by apply elem_of_nil in Hin.
Qed.

Lemma sum_rate_without_sentinels (p : frame -> bool) (rows : list frame) :
  (∀ f, f ∈ rows → res_type f = "_NO_DATA_" → rate f = Decimal 0) →
  sum_dec (rate <$> List.filter p rows)
  = sum_dec (rate <$> List.filter p
               (List.filter (fun f => negb (is_sentinel f)) rows)).
Proof.
  induction rows as [|a rows IH]; intros Hzero; [done|].
  assert (IH' := IH (fun f Hf => Hzero f (list_elem_of_further _ _ _ Hf))).
  cbn [List.filter].
  destruct (is_sentinel a) eqn:Hs; cbn [negb List.filter].
  - destruct (p a); [|done]. rewrite fmap_cons, sum_dec_cons, <- IH'.
    rewrite (Hzero a); [by rewrite dec_add_0_l|by left|].
    unfold is_sentinel, NO_DATA in Hs. by destruct (decide _).
  - destruct (p a); [|done]. by rewrite !fmap_cons, !sum_dec_cons, IH'.
Qed.

Lemma sql_sum_default (l : list decimal) :
  default (Decimal 0) (sql_sum l) = sum_dec l.
Proof. by destruct l. Qed.

(** C1 (as the code has it): [get_project_usage], [get_instance_usage] and
    [get_bandwidth_hourly_usage] never select a sentinel row, so their
    results are those of the table without its sentinel rows, whatever the
    filters.  [get_total] drops the sentinel rows only through a [service]
    filter; without one they enter the sum, to which they add their rate
    of 0: the amount is unchanged, read with NULL as 0. *)
Theorem sentinel_frames_excluded (rows : list frame) (b e : option Z)
    (tenant service : option string) :
  let real := List.filter (fun f => negb (is_sentinel f)) rows in
  get_project_usage get_month_start get_next_month rows b e tenant service
  = get_project_usage get_month_start get_next_month real b e tenant service
  ∧ get_instance_usage get_month_start get_next_month rows b e tenant service
    = get_instance_usage get_month_start get_next_month real b e
        tenant service
  ∧ get_bandwidth_hourly_usage get_month_start get_next_month
      rows b e tenant service
    = get_bandwidth_hourly_usage get_month_start get_next_month
        real b e tenant service
  ∧ (∀ r, r ∈ project_query get_month_start get_next_month
                rows b e tenant service →
          pr_res_type r ≠ "_NO_DATA_")
  ∧ (∀ r, r ∈ instance_query get_month_start get_next_month
                rows b e tenant service →
          ir_res_type r ≠ "_NO_DATA_")
  ∧ (str_truthy service = true → service ≠ Some "_NO_DATA_" →
     get_total get_month_start get_next_month rows b e tenant service
     = get_total get_month_start get_next_month real b e tenant service)
  ∧ ((∀ f, f ∈ rows → res_type f = "_NO_DATA_" → rate f = Decimal 0) →
     default (Decimal 0)
       (get_total get_month_start get_next_month rows b e tenant service)
     = default (Decimal 0)
         (get_total get_month_start get_next_month real b e
            tenant service)).
Proof.
  intros real.
  assert (Hreal : ∀ p : frame → bool,
    (∀ f, p f = true → negb (is_sentinel f) = true) →
    List.filter p real = List.filter p rows)
    by (intros p Hp; by apply filter_filter_sub).
  split.
  { unfold get_project_usage, project_query. rewrite Hreal; [done|].
    by intros f [_ ?]%andb_true_iff. }
  split.
  { unfold get_instance_usage, instance_query. rewrite Hreal; [done|].
    by intros f [_ ?]%andb_true_iff. }
  split.
  { unfold get_bandwidth_hourly_usage, bandwidth_query.
    rewrite Hreal; [done|].
    intros f [_ ?]%andb_true_iff. by apply bw_type_not_sentinel. }
  split.
  { intros r Hr. unfold project_query in Hr.
    apply list_elem_of_fmap in Hr as ([k g] & -> & Hg). simpl.
    destruct g as [|a g]; [by apply group_by_spec in Hg as [_ ?]|].
    destruct (group_by_sound _ _ _ _ a Hg) as [Ha Hk]; [by left|].
    apply list_elem_of_In, List.filter_In in Ha as [_ Ha].
    apply andb_true_iff in Ha as [_ Ha]. subst k. simpl.
    unfold is_sentinel, NO_DATA in Ha. by destruct (decide _). }
  split.
  { intros r Hr. unfold instance_query in Hr.
    apply list_elem_of_fmap in Hr as ([k g] & -> & Hg). simpl.
    destruct g as [|a g]; [by apply group_by_spec in Hg as [_ ?]|].
    destruct (group_by_sound _ _ _ _ a Hg) as [Ha Hk]; [by left|].
    apply list_elem_of_In, List.filter_In in Ha as [_ Ha].
    apply andb_true_iff in Ha as [_ Ha]. subst k. simpl.
    unfold is_sentinel, NO_DATA in Ha. by destruct (decide _). }
  split.
  { intros Hs Hne. unfold get_total. rewrite Hreal; [done|].
    intros f Hf. unfold base_filter, service_filter in Hf. rewrite Hs in Hf.
    apply andb_true_iff in Hf as [[_ Hf]%andb_true_iff _].
    apply bool_decide_eq_true in Hf. unfold is_sentinel, NO_DATA.
    destruct (decide _) as [Heq|]; [|done]. congruence. }
  intros Hzero. unfold get_total. rewrite !sql_sum_default.
  by apply sum_rate_without_sentinels.
Qed.

(** *** Loops over query rows *)


Lemma for_rows_ok {S A} (step : S -> A -> exn + S) (P : S -> Prop)
    (l : list A) (acc : S) :
  (∀ s0 a, a ∈ l → P s0 → ∃ s1, step s0 a = inr s1 ∧ P s1) →
  P acc → ∃ s, for_rows step acc l = inr s.
Proof.
  revert acc. induction l as [|a l IH]; intros acc Hstep Hacc; simpl.
  - by eexists.
  - destruct (Hstep acc a) as (acc' & -> & Hacc'); [by left|done|].
    apply IH; [|done]. intros s0 a0 Hin. apply Hstep. by right.
Qed.

(** *** Project usage *)

Lemma pu_rate_comm (z1 z2 : pu_value) (y : decimal) :
  dec_add (pu_rate_sum z1) (dec_add (pu_rate_sum z2) y)
  = dec_add (pu_rate_sum z2) (dec_add (pu_rate_sum z1) y).
Proof.
  rewrite !dec_add_assoc. f_equal. apply dec_add_comm.
Qed.

Lemma entries_rate_sum_empty : entries_rate_sum ∅ = Decimal 0.
Proof. apply map_fold_empty. Qed.

Lemma entries_rate_sum_insert (tu : gmap string pu_value) (k : string)
    (v : pu_value) :
  entries_rate_sum (<[k := v]> tu)
  = dec_add (pu_rate_sum v) (entries_rate_sum (delete k tu)).
Proof.
  unfold entries_rate_sum. rewrite <- insert_delete_eq.
  rewrite map_fold_insert_L; [done| |apply lookup_delete_eq].
  intros. apply pu_rate_comm.
Qed.

Lemma entries_rate_sum_lookup (tu : gmap string pu_value) (k : string)
    (v : pu_value) :
  tu !! k = Some v →
  entries_rate_sum tu
  = dec_add (pu_rate_sum v) (entries_rate_sum (delete k tu)).
Proof.
  intros Hk. unfold entries_rate_sum.
  rewrite (map_fold_delete_L _ _ k v tu); [done| |done].
  intros. apply pu_rate_comm.
Qed.

Lemma entries_rate_sum_fresh (tu : gmap string pu_value) (k : string) :
  tu !! k = None → entries_rate_sum (delete k tu) = entries_rate_sum tu.
Proof. intros Hk. by rewrite delete_id. Qed.

(** Replacing or adding a value that lists the same rates leaves the sum
    unchanged. *)
Lemma entries_rate_sum_insert_same (tu : gmap string pu_value) (k : string)
    (v : pu_value) :
  pu_rate_sum v = from_option pu_rate_sum (Decimal 0) (tu !! k) →
  entries_rate_sum (<[k := v]> tu) = entries_rate_sum tu.
Proof.
  intros Hv. rewrite entries_rate_sum_insert, Hv.
  destruct (tu !! k) as [old|] eqn:Hk; simpl.
  - by rewrite <- entries_rate_sum_lookup.
  - by rewrite dec_add_0_l, entries_rate_sum_fresh.
Qed.

Lemma project_step_inv (usage usage' : gmap string (gmap string pu_value))
    (r : project_row) :
  project_usage_inv usage →
  project_step usage r = inr usage' →
  project_usage_inv usage'.
Proof.
  intros Hinv. unfold project_step.
  set (tu0 := default ∅ (usage !! pr_tenant_id r)).
  assert (H1 : ∃ T, setdefault "total" (PUTotal (Decimal 0)) tu0 !! "total"
                    = Some (PUTotal T)
               ∧ T = entries_rate_sum
                       (setdefault "total" (PUTotal (Decimal 0)) tu0)
               ∧ ∀ k v, setdefault "total" (PUTotal (Decimal 0)) tu0 !! k
                        = Some v → k ≠ "total" → ∃ l, v = PUList l).
  { unfold tu0, setdefault.
    destruct (usage !! pr_tenant_id r) as [tu|] eqn:Ht; simpl.
    - destruct (Hinv _ _ Ht) as [(T & HT & Hsum) Hlists].
      rewrite HT. by exists T.
    - rewrite lookup_empty. exists (Decimal 0).
      rewrite lookup_insert_eq. split; [done|]. split.
      + rewrite entries_rate_sum_insert_same; [by rewrite entries_rate_sum_empty|].
        by rewrite lookup_empty.
      + intros k v Hk Hne. rewrite lookup_insert_ne in Hk by done.
        by rewrite lookup_empty in Hk. }
  destruct H1 as (T & HT & Hsum & Hlists).
  set (tu1 := setdefault "total" (PUTotal (Decimal 0)) tu0) in *.
  rewrite HT.
  set (tu2 := <["total" := PUTotal (dec_add T (pr_rate r))]> tu1).
  assert (Hsum2 : entries_rate_sum tu2 = T).
  { unfold tu2. rewrite entries_rate_sum_insert_same; [done|]. by rewrite HT. }
  set (tu3 := setdefault (pr_res_type r) (PUList []) tu2).
  destruct (tu3 !! pr_res_type r) as [[?|l]|] eqn:Hrt; try done.
  intros [= <-].
  assert (Hne : pr_res_type r ≠ "total").
  { intros Heq. unfold tu3, setdefault in Hrt. rewrite Heq in Hrt.
    unfold tu2 in Hrt. rewrite lookup_insert_eq in Hrt.
    unfold tu2 in Hrt. by rewrite lookup_insert_eq in Hrt. }
  assert (H3 : tu3 !! "total" = Some (PUTotal (dec_add T (pr_rate r)))
               ∧ entries_rate_sum tu3 = T
               ∧ ∀ k v, tu3 !! k = Some v → k ≠ "total" → ∃ l, v = PUList l).
  { unfold tu3, setdefault.
    destruct (tu2 !! pr_res_type r) as [old|] eqn:Hold.
    - split; [apply lookup_insert_eq|]. split; [done|].
      intros k v Hk Hk'. unfold tu2 in Hk.
      rewrite lookup_insert_ne in Hk by done. by apply (Hlists k v).
    - split; [rewrite lookup_insert_ne by done; apply lookup_insert_eq|].
      split.
      + rewrite entries_rate_sum_insert_same; [done|]. by rewrite Hold.
      + intros k v Hk Hk'.
        destruct (decide (k = pr_res_type r)) as [->|Hkr].
        * rewrite lookup_insert_eq in Hk. injection Hk as <-. by eexists.
        * rewrite lookup_insert_ne in Hk by done. unfold tu2 in Hk.
          rewrite lookup_insert_ne in Hk by done. by apply (Hlists k v). }
  destruct H3 as (Htot3 & Hsum3 & Hlists3).
  intros t tu Ht.
  destruct (decide (t = pr_tenant_id r)) as [->|Hnt].
  - rewrite lookup_insert_eq in Ht. injection Ht as <-. split.
    + exists (dec_add T (pr_rate r)).
      split; [by rewrite lookup_insert_ne|].
      rewrite entries_rate_sum_insert.
      rewrite (entries_rate_sum_lookup tu3 _ _ Hrt) in Hsum3.
      rewrite <- Hsum3. cbn [pu_rate_sum].
      rewrite fmap_app, sum_dec_app, fmap_cons, fmap_nil, sum_dec_cons.
      cbn [e_rate sum_dec foldr]. rewrite dec_add_0_r.
      rewrite <- !dec_add_assoc. f_equal. apply dec_add_comm.
    + intros k v Hk Hk'.
      destruct (decide (k = pr_res_type r)) as [->|Hkr].
      * rewrite lookup_insert_eq in Hk. injection Hk as <-. by eexists.
      * rewrite lookup_insert_ne in Hk by done. by apply (Hlists3 k v).
  - rewrite lookup_insert_ne in Ht by done. by apply (Hinv t tu).
Qed.

Lemma project_usage_inv_empty : project_usage_inv ∅.
Proof. intros t tu Ht. by rewrite lookup_empty in Ht. Qed.


Lemma tenant_total_ready (usage : gmap string (gmap string pu_value))
    (t : string) :
  project_usage_inv usage →
  ∃ T, setdefault "total" (PUTotal (Decimal 0)) (default ∅ (usage !! t))
         !! "total" = Some (PUTotal T)
       ∧ ∀ k v, setdefault "total" (PUTotal (Decimal 0))
                  (default ∅ (usage !! t)) !! k = Some v →
                k ≠ "total" → ∃ l, v = PUList l.
Proof.
  intros Hinv. unfold setdefault.
  destruct (usage !! t) as [tu|] eqn:Ht; simpl.
  - destruct (Hinv _ _ Ht) as [(T & HT & _) Hlists].
    rewrite HT. by exists T.
  - rewrite lookup_empty. exists (Decimal 0).
    rewrite lookup_insert_eq. split; [done|].
    intros k v Hk Hne. rewrite lookup_insert_ne in Hk by done.
    by rewrite lookup_empty in Hk.
Qed.

(** The loop body raises only on a resource type called "total", whose
    list would have to live under the key of the running total. *)
Lemma project_step_ok (usage : gmap string (gmap string pu_value))
    (r : project_row) :
  project_usage_inv usage → pr_res_type r ≠ "total" →
  ∃ usage', project_step usage r = inr usage' ∧ project_usage_inv usage'.
Proof.
  intros Hinv Hne.
  assert (∃ usage', project_step usage r = inr usage') as [usage' Hstep].
  { unfold project_step.
    destruct (tenant_total_ready usage (pr_tenant_id r) Hinv)
      as (T & HT & Hlists).
    set (tu1 := setdefault "total" (PUTotal (Decimal 0))
                  (default ∅ (usage !! pr_tenant_id r))) in *.
    rewrite HT.
    set (tu2 := <["total" := PUTotal (dec_add T (pr_rate r))]> tu1).
    assert (∃ l, setdefault (pr_res_type r) (PUList []) tu2
                   !! pr_res_type r = Some (PUList l)) as [l ->];
      [|by eexists].
    unfold setdefault. destruct (tu2 !! pr_res_type r) as [old|] eqn:Hold.
    - rewrite Hold. unfold tu2 in Hold.
      rewrite lookup_insert_ne in Hold by done.
      destruct (Hlists _ _ Hold Hne) as [l ->]. by exists l.
    - rewrite lookup_insert_eq. by exists []. }
  exists usage'. split; [done|]. by eapply project_step_inv.
Qed.

Lemma project_query_row (rows : list frame) (b e : option Z)
    (tenant service : option string) (r : project_row) :
  r ∈ project_query get_month_start get_next_month rows b e tenant service →
  ∃ f, f ∈ rows
       ∧ base_filter get_month_start get_next_month b e tenant service f
         = true
       ∧ res_type f ≠ "_NO_DATA_"
       ∧ pr_tenant_id r = tenant_id f ∧ pr_res_type r = res_type f
       ∧ pr_unit r = unit f.
Proof.
  unfold project_query. intros ([k g] & -> & Hg)%list_elem_of_fmap.
  destruct g as [|a g]; [by apply group_by_spec in Hg as [_ ?]|].
  destruct (group_by_sound _ _ _ _ a Hg) as [Ha Hk]; [by left|].
  apply list_elem_of_In, List.filter_In in Ha as [Ha Hsel].
  apply andb_true_iff in Hsel as [Hbase Hsent].
  exists a. subst k. simpl. split; [by apply list_elem_of_In|].
  split; [done|]. split; [|done].
  unfold is_sentinel, NO_DATA in Hsent. by destruct (decide _).
Qed.

(** [get_project_usage] returns a mapping unless a selected frame has the
    resource type "total". *)
Lemma get_project_usage_returns (rows : list frame) (b e : option Z)
    (tenant service : option string) :
  (∀ f, f ∈ rows → res_type f ≠ "total") →
  ∃ usage,
    get_project_usage get_month_start get_next_month rows b e tenant service
    = inr usage.
Proof.
  intros Hrt. unfold get_project_usage.
  apply (for_rows_ok project_step project_usage_inv);
    [|apply project_usage_inv_empty].
  intros s0 r Hr Hs0. apply project_step_ok; [done|].
  apply project_query_row in Hr as (f & Hf & _ & _ & _ & -> & _).
  by apply Hrt.
Qed.

(** *** Instance usage *)










(** *** get_state *)

Lemma sorts_before_desc_trans (a b c : option Z) :
  sorts_before_desc b c = false → sorts_before_desc a b = false →
  sorts_before_desc a c = false.
Proof.
  unfold sorts_before_desc.
  destruct a as [x|], b as [y|], c as [z|]; try done.
  rewrite !bool_decide_eq_false. lia.
Qed.

Lemma sorts_before_desc_total (a c : option Z) :
  sorts_before_desc a c = true → sorts_before_desc c a = false.
Proof.
  unfold sorts_before_desc. destruct a as [x|], c as [z|]; try done.
  rewrite bool_decide_eq_true, bool_decide_eq_false. lia.
Qed.

Lemma sorts_before_desc_irrefl (a : option Z) :
  sorts_before_desc a a = false.
Proof.
  unfold sorts_before_desc. destruct a as [x|]; [|done].
  rewrite bool_decide_eq_false. lia.
Qed.

Lemma first_desc_fold (q : list frame) (best : option frame) :
  let pick := fun best f =>
                match best with
                | None => Some f
                | Some c => if sorts_before_desc (begin f) (begin c)
                            then Some f else Some c
                end in
  match foldl pick best q with
  | None => best = None ∧ q = []
  | Some r =>
      (best = Some r ∨ r ∈ q)
      ∧ (∀ c, best = Some c → sorts_before_desc (begin c) (begin r) = false)
      ∧ (∀ f, f ∈ q → sorts_before_desc (begin f) (begin r) = false)
  end.
Proof.
  intros pick. revert best. induction q as [|a q IH]; intros best; simpl.
  - destruct best as [c|]; [|done]. split; [by left|]. split.
    + intros ? [= <-]. apply sorts_before_desc_irrefl.
    + intros f Hf. by apply elem_of_nil in Hf.
  - specialize (IH (pick best a)).
    destruct (foldl pick (pick best a) q) as [r|] eqn:Hr.
    + destruct IH as (Hsrc & Hbest & Hq).
      assert (Ha : sorts_before_desc (begin a) (begin r) = false).
      { destruct best as [c|]; simpl in *.
        - destruct (sorts_before_desc (begin a) (begin c)) eqn:Hac.
          + by apply Hbest.
          + eapply sorts_before_desc_trans; [|exact Hac]. by apply Hbest.
        - by apply Hbest. }
      split; [|split].
      * destruct Hsrc as [Hsrc|Hsrc]; [|by right; right].
        destruct best as [c|]; simpl in Hsrc.
        -- destruct (sorts_before_desc (begin a) (begin c));
             injection Hsrc as <-; [right; by left|by left].
        -- injection Hsrc as <-. right. by left.
      * intros c ->. simpl in *.
        destruct (sorts_before_desc (begin a) (begin c)) eqn:Hac.
        -- eapply sorts_before_desc_trans; [by apply Hbest|].
           by apply sorts_before_desc_total.
        -- by apply Hbest.
      * intros f [->|Hf]%elem_of_cons; [done|by apply Hq].
    + destruct IH as [Hnone _]. destruct best as [c|]; simpl in Hnone.
      * by destruct (sorts_before_desc (begin a) (begin c)).
      * done.
Qed.

(** X8: [get_state] returns nothing exactly when the tenant (every tenant,
    when none is given) has no row; otherwise it returns the converted
    [begin] of one of these rows, and no row of the tenant begins later
    than that one. *)
Theorem get_state_watermark {T : Type} (dt2ts : option Z -> T)
    (rows : list frame) (tenant : option string) :
  (get_state dt2ts rows tenant = None
     ↔ ∀ f, f ∈ rows → tenant_filter tenant f = false)
  ∧ (∀ x, get_state dt2ts rows tenant = Some x →
       ∃ r, r ∈ rows ∧ tenant_filter tenant r = true
            ∧ x = dt2ts (begin r)
            ∧ ∀ f fb, f ∈ rows → tenant_filter tenant f = true →
                begin f = Some fb →
                begin r = None ∨ ∃ rb, begin r = Some rb ∧ fb ≤ rb).
Proof.
  unfold get_state, first_desc.
  pose proof (first_desc_fold (List.filter (tenant_filter tenant) rows) None)
    as Hfold. simpl in Hfold.
  destruct (foldl _ None (List.filter (tenant_filter tenant) rows))
    as [r|] eqn:Hr; simpl.
  - destruct Hfold as ([?|Hin] & _ & Hmax); [done|].
    apply list_elem_of_In, List.filter_In in Hin as [Hin Hsel].
    split.
    + split; [done|]. intros Hnone.
      rewrite (Hnone r) in Hsel; [done|by apply list_elem_of_In].
    + intros x [= <-]. exists r. split; [by apply list_elem_of_In|].
      split; [done|]. split; [done|].
      intros f fb Hf Hfsel Hfb.
      assert (Hfq : f ∈ List.filter (tenant_filter tenant) rows).
      { apply list_elem_of_In, List.filter_In.
        split; [by apply list_elem_of_In|done]. }
      specialize (Hmax f Hfq). unfold sorts_before_desc in Hmax.
      rewrite Hfb in Hmax. destruct (begin r) as [rb|]; [|by left].
      right. exists rb. split; [done|].
      apply bool_decide_eq_false in Hmax. lia.
  - destruct Hfold as [_ Hnil]. split; [|done].
    split; [|done]. intros _. by apply filter_nil_iff.
Qed.


(** *** Totals *)

Lemma sum_dec_const_zero {A} (l : list A) :
  sum_dec ((fun _ => Decimal 0) <$> l) = Decimal 0.
Proof.
  induction l as [|a l IH]; [done|].
  by rewrite fmap_cons, sum_dec_cons, IH, dec_add_0_l.
Qed.

Lemma dec_add_swap (a b c d : Qc) :
  dec_add (dec_add a b) (dec_add c d) = dec_add (dec_add a c) (dec_add b d).
Proof.
  change ((a + b + (c + d))%Qc = (a + c + (b + d))%Qc). ring.
Qed.

Lemma sum_dec_pointwise {A} (f g : A -> decimal) (l : list A) :
  sum_dec ((fun a => dec_add (f a) (g a)) <$> l)
  = dec_add (sum_dec (f <$> l)) (sum_dec (g <$> l)).
Proof.
  induction l as [|a l IH].
  - symmetry. apply dec_add_0_l.
  - rewrite !fmap_cons, !sum_dec_cons, IH. apply dec_add_swap.
Qed.

Lemma sum_dec_indicator {K} `{EqDecision K} (ks : list K) (k0 : K)
    (x : decimal) :
  NoDup ks → k0 ∈ ks →
  sum_dec ((fun k => if decide (k0 = k) then x else Decimal 0) <$> ks) = x.
Proof.
  induction ks as [|k ks IH]; intros Hnd Hin.
  - by apply elem_of_nil in Hin.
  - apply NoDup_cons in Hnd as [Hk Hnd]. rewrite fmap_cons, sum_dec_cons.
    destruct (decide (k0 = k)) as [->|Hne].
    + rewrite (sum_dec_ext _ (fun _ => Decimal 0)).
      * by rewrite sum_dec_const_zero, dec_add_0_r.
      * intros k' Hk'. destruct (decide (k = k')) as [->|]; done.
    + rewrite dec_add_0_l. apply IH; [done|].
      apply elem_of_cons in Hin as [?|?]; done.
Qed.

(** Summing group by group is summing everything, as long as every key
    that occurs is visited once. *)
Lemma sum_dec_by_key {K A} `{EqDecision K} (key : A -> K) (h : A -> decimal)
    (ks : list K) (l : list A) :
  NoDup ks → (∀ a, a ∈ l → key a ∈ ks) →
  sum_dec ((fun k => sum_dec (h <$> List.filter
                                (fun a => bool_decide (key a = k)) l))
           <$> ks)
  = sum_dec (h <$> l).
Proof.
  intros Hnd. induction l as [|a l IH]; intros Hkeys.
  - simpl. apply sum_dec_const_zero.
  - rewrite fmap_cons, sum_dec_cons, <- IH.
    2:{ intros a' Ha'. apply Hkeys. by right. }
    rewrite <- (sum_dec_indicator ks (key a) (h a)) at 1;
      [|done|apply Hkeys; by left].
    rewrite <- sum_dec_pointwise. apply sum_dec_ext. intros k _.
    cbn [List.filter].
    destruct (decide (key a = k)) as [Hk|Hk].
    + by rewrite bool_decide_eq_true_2.
    + rewrite bool_decide_eq_false_2 by done. by rewrite dec_add_0_l.
Qed.


(** [get_total] is NULL exactly when no row matches the filters, and is
    otherwise the sum of the rates of the matching rows. *)
Lemma get_total_sum (rows : list frame) (b e : option Z)
    (tenant service : option string) :
  (get_total get_month_start get_next_month rows b e tenant service = None
     ↔ ∀ f, f ∈ rows →
         base_filter get_month_start get_next_month b e tenant service f
         = false)
  ∧ (∀ f, f ∈ rows →
       base_filter get_month_start get_next_month b e tenant service f
       = true →
       get_total get_month_start get_next_month rows b e tenant service
       = Some (sum_dec (rate <$> List.filter
                          (base_filter get_month_start get_next_month
                             b e tenant service) rows))).
Proof.
  unfold get_total, sql_sum. split.
  - rewrite <- filter_nil_iff.
    destruct (List.filter _ rows) as [|x q] eqn:Hq; [done|].
    by rewrite fmap_cons.
  - intros f Hf Hsel.
    destruct (List.filter _ rows) as [|x q] eqn:Hq; [|done].
    apply (proj1 (filter_nil_iff _ _) Hq) in Hf. congruence.
Qed.

(** X9: as long as no row carries the empty tenant id, the total over all
    tenants is the sum, over the tenants [get_tenants] lists for the window,
    of the total of each (a NULL total read as 0). *)
Theorem get_total_by_tenant (rows : list frame) (b e : option Z)
    (service : option string) :
  (∀ f, f ∈ rows → tenant_id f ≠ "") →
  default (Decimal 0)
    (get_total get_month_start get_next_month rows b e None service)
  = sum_dec
      ((fun t => default (Decimal 0)
                   (get_total get_month_start get_next_month rows b e
                      (Some t) service))
       <$> get_tenants get_month_start get_next_month rows b e).
Proof.
  intros Hne. unfold get_total. rewrite sql_sum_default.
  set (sel := base_filter get_month_start get_next_month b e None service).
  rewrite <- (sum_dec_by_key tenant_id rate
                (get_tenants get_month_start get_next_month rows b e)
                (List.filter sel rows)).
  - apply sum_dec_ext. intros t Ht. rewrite sql_sum_default.
    rewrite filter_filter_and. do 2 f_equal.
    apply List.filter_ext_in. intros f Hf%list_elem_of_In.
    unfold sel, base_filter, tenant_filter.
    assert (Hnone : str_truthy None = false) by done. rewrite Hnone.
    assert (Htruthy : str_truthy (Some t) = true).
    { unfold get_tenants in Ht.
      apply elem_of_remove_dups, list_elem_of_fmap in Ht as (g & -> & Hg).
      apply list_elem_of_In, List.filter_In in Hg as [Hg _].
      apply list_elem_of_In, Hne in Hg. simpl.
      by destruct (decide (tenant_id g = "")). }
    rewrite Htruthy. cbn [andb].
    destruct (decide (tenant_id f = t)) as [->|Hft].
    + rewrite !bool_decide_eq_true_2 by done. by rewrite andb_true_r.
    + rewrite !bool_decide_eq_false_2 by congruence.
      by rewrite andb_false_r.
  - unfold get_tenants. apply NoDup_remove_dups.
  - intros f Hf. apply list_elem_of_In, List.filter_In in Hf as [Hf Hsel].
    unfold get_tenants. apply elem_of_remove_dups, list_elem_of_fmap.
    exists f. split; [done|]. apply list_elem_of_In, List.filter_In.
    split; [done|]. by apply base_filter_in_window in Hsel.
Qed.

(** *** Time frames *)

Lemma filter_sublist_mono {A} (p q : A -> bool) (l : list A) :
  (∀ a, p a = true → q a = true) →
  List.filter p l `sublist_of` List.filter q l.
Proof.
  intros Hpq. induction l as [|a l IH]; simpl; [done|].
  destruct (p a) eqn:Hp.
  - rewrite (Hpq a Hp). by apply sublist_skip.
  - destruct (q a); [by apply sublist_cons|done].
Qed.

Lemma sublist_map {A B} (f : A -> B) (l k : list A) :
  l `sublist_of` k → (f <$> l) `sublist_of` (f <$> k).
Proof.
  induction 1 as [|x l k _ IH|x l k _ IH]; [done| |].
  - rewrite !fmap_cons. by apply sublist_skip.
  - rewrite fmap_cons. by apply sublist_cons.
Qed.

(** X10: when [get_time_frame], asked for one tenant's rows, returns, that
    tenant is among those [get_tenants] lists for the window. *)
Theorem time_frame_tenant_listed (rows : list frame) (b e : Z)
    (filters : gmap column cell) (t : string) (l : list R) :
  filters !! col_tenant_id = Some (CStr t) → t ≠ "" →
  get_time_frame to_cloudkitty rows b e filters = inr l →
  t ∈ get_tenants get_month_start get_next_month rows (Some b) (Some e).
Proof.
  intros Hfilter Ht. rewrite get_time_frame_where.
  destruct (List.filter _ rows) as [|f q] eqn:Hq; [done|]. intros _.
  assert (Hf : f ∈ List.filter (time_frame_where b e filters) rows)
    by (rewrite Hq; left).
  apply list_elem_of_In, List.filter_In in Hf as [Hf Hsel].
  apply time_frame_where_spec in Hsel as (Hwin & Hall & _).
  specialize (Hall col_tenant_id (CStr t) Hfilter).
  simpl in Hall. destruct (decide (t = "")); [done|].
  injection (Hall eq_refl) as Hten.
  unfold get_tenants. apply elem_of_remove_dups, list_elem_of_fmap.
  exists f. split; [done|]. apply list_elem_of_In, List.filter_In.
  split; [done|]. by apply in_window_spec.
Qed.

(** X11: widening the window never loses a time frame: if [get_time_frame]
    returns for a window, it returns for every window that contains it, and
    the first result is a sub-sequence of the second. *)
Theorem time_frame_window_monotone (rows : list frame) (b e b' e' : Z)
    (filters : gmap column cell) (l : list R) :
  b' ≤ b → e ≤ e' →
  get_time_frame to_cloudkitty rows b e filters = inr l →
  ∃ l', get_time_frame to_cloudkitty rows b' e' filters = inr l'
        ∧ l `sublist_of` l'.
Proof.
  intros Hb He. rewrite !get_time_frame_where.
  assert (Hsub : List.filter (time_frame_where b e filters) rows
                 `sublist_of`
                 List.filter (time_frame_where b' e' filters) rows).
  { apply filter_sublist_mono. intros f. unfold time_frame_where.
    rewrite !andb_true_iff, !in_window_spec.
    intros [[(fb & fe & ? & ? & ? & ?) ?] ?].
    split; [split; [|done]|done].
    exists fb, fe. repeat split; [done|done|lia|lia]. }
  destruct (List.filter (time_frame_where b e filters) rows)
    as [|f q] eqn:Hq; [done|]. intros [= <-].
  destruct (List.filter (time_frame_where b' e' filters) rows)
    as [|f' q'] eqn:Hq'.
  - by apply sublist_nil_r in Hsub.
  - eexists. split; [done|]. by apply (sublist_map to_cloudkitty) in Hsub.
Qed.

(** *** Sums over groups *)

Lemma for_rows_app {S A} (step : S -> A -> exn + S) (acc : S)
    (l1 l2 : list A) :
  for_rows step acc (l1 ++ l2)
  = match for_rows step acc l1 with
    | inr s => for_rows step s l2
    | inl e => inl e
    end.
Proof.
  revert acc. induction l1 as [|a l1 IH]; intros acc; [done|].
  simpl. destruct (step acc a); [done|]. apply IH.
Qed.



(** *** Project usage, end to end *)







(** *** Bandwidth, end to end *)



(** *** Project usage: the lists *)

Lemma setdefault_lookup_ne {V} (k k' : string) (v : V)
    (m : gmap string V) :
  k ≠ k' → setdefault k v m !! k' = m !! k'.
Proof.
  intros Hne. unfold setdefault. destruct (m !! k); [done|].
  by rewrite lookup_insert_ne.
Qed.

Lemma setdefault_lookup_eq {V} (k : string) (v : V) (m : gmap string V) :
  setdefault k v m !! k = Some (default v (m !! k)).
Proof.
  unfold setdefault. destruct (m !! k) eqn:Hk; [by rewrite Hk|].
  by rewrite lookup_insert_eq.
Qed.

(** One turn of the loop appends the row's entry to the list of the row's
    tenant and resource type, and leaves every other list alone. *)
Lemma project_step_lists (usage usage' : gmap string (gmap string pu_value))
    (r : project_row) (t rt : string) :
  project_step usage r = inr usage' → rt ≠ "total" →
  usage' !! t ≫= lookup rt
  = if decide (t = pr_tenant_id r ∧ rt = pr_res_type r)
    then match usage !! t ≫= lookup rt with
         | Some (PUList l) => Some (PUList (l ++ [project_row_entry r]))
         | Some (PUTotal _) => None
         | None => Some (PUList [project_row_entry r])
         end
    else usage !! t ≫= lookup rt.
Proof.
  unfold project_step.
  set (tu0 := default ∅ (usage !! pr_tenant_id r)).
  set (tu1 := setdefault "total" (PUTotal (Decimal 0)) tu0).
  destruct (tu1 !! "total") as [[T|?]|] eqn:HT; try done.
  set (tu2 := <["total" := PUTotal (dec_add T (pr_rate r))]> tu1).
  set (tu3 := setdefault (pr_res_type r) (PUList []) tu2).
  destruct (tu3 !! pr_res_type r) as [[?|l]|] eqn:Hrt; try done.
  intros [= <-] Hne.
  assert (Hne0 : pr_res_type r ≠ "total").
  { intros Heq. unfold tu3 in Hrt.
    rewrite setdefault_lookup_eq in Hrt. rewrite Heq in Hrt.
    unfold tu2 in Hrt. by rewrite lookup_insert_eq in Hrt. }
  assert (Hold : ∀ k, k ≠ "total" →
                   tu2 !! k = usage !! pr_tenant_id r ≫= lookup k).
  { intros k Hk. unfold tu2, tu1, tu0.
    rewrite lookup_insert_ne by done.
    rewrite setdefault_lookup_ne by done.
    destruct (usage !! pr_tenant_id r); [done|]. apply lookup_empty. }
  destruct (decide (t = pr_tenant_id r)) as [->|Hnt].
  - rewrite lookup_insert_eq. simpl.
    destruct (decide (rt = pr_res_type r)) as [->|Hnr].
    + rewrite decide_True by done. rewrite lookup_insert_eq.
      unfold tu3 in Hrt. rewrite setdefault_lookup_eq, Hold in Hrt by done.
      destruct (usage !! pr_tenant_id r ≫= lookup (pr_res_type r))
        as [[?|l0]|]; simpl in Hrt; by simplify_eq.
    + rewrite decide_False by (by intros [_ ?]).
      rewrite lookup_insert_ne by done. unfold tu3.
      rewrite setdefault_lookup_ne by done. by apply Hold.
  - rewrite decide_False by (by intros [? _]).
    by rewrite lookup_insert_ne.
Qed.

Lemma project_loop_lists (l : list project_row)
    (usage : gmap string (gmap string pu_value)) (t rt : string) :
  for_rows project_step ∅ l = inr usage → rt ≠ "total" →
  let rs := List.filter (fun r => bool_decide (pr_tenant_id r = t
                                               ∧ pr_res_type r = rt)) l in
  usage !! t ≫= lookup rt
  = match rs with
    | [] => None
    | _ :: _ => Some (PUList (project_row_entry <$> rs))
    end.
Proof.
  intros Hrun Hrt. simpl. revert usage Hrun.
  induction l as [|a l IH] using rev_ind; intros usage.
  - intros [= <-]. by rewrite lookup_empty.
  - rewrite for_rows_app.
    destruct (for_rows project_step ∅ l) as [e|usage0] eqn:Hrun0; [done|].
    simpl. destruct (project_step usage0 a) as [e|usage1] eqn:Hstep; [done|].
    intros [= <-]. rewrite (project_step_lists _ _ _ t rt Hstep Hrt).
    rewrite (IH usage0 eq_refl), List.filter_app. cbn [List.filter].
    destruct (decide (t = pr_tenant_id a ∧ rt = pr_res_type a))
      as [[-> ->]|Hno].
    + rewrite bool_decide_eq_true_2 by done.
      destruct (List.filter _ l) as [|r0 rs]; [done|].
      by rewrite fmap_app.
    + rewrite bool_decide_eq_false_2 by (intros [? ?]; by apply Hno).
      by rewrite app_nil_r.
Qed.

(** X15: in the mapping [get_project_usage] returns, the list filed under
    a tenant and a resource type holds one entry for each unit, in the
    order of the query's rows, and each entry carries the sums of the
    quantities and of the rates of the selected frames of that tenant,
    resource type and unit; a resource type without such frames has no
    list. *)
Theorem project_usage_lists (rows : list frame) (b e : option Z)
    (tenant service : option string)
    (usage : gmap string (gmap string pu_value)) (t rt : string) :
  get_project_usage get_month_start get_next_month rows b e tenant service
    = inr usage →
  rt ≠ "total" →
  let selected := List.filter
                    (fun f => base_filter get_month_start get_next_month
                                b e tenant service f
                              && negb (is_sentinel f)) rows in
  let rs := List.filter
              (fun r => bool_decide (pr_tenant_id r = t
                                     ∧ pr_res_type r = rt))
              (project_query get_month_start get_next_month
                 rows b e tenant service) in
  usage !! t ≫= lookup rt
  = match rs with
    | [] => None
    | _ :: _ => Some (PUList (project_row_entry <$> rs))
    end
  ∧ NoDup (pr_unit <$> rs)
  ∧ ∀ r, r ∈ rs →
      let group := List.filter
                     (fun f => bool_decide
                                 ((tenant_id f, res_type f, unit f)
                                  = (t, rt, pr_unit r))) selected in
      group ≠ []
      ∧ pr_qty r = sum_dec (qty <$> group)
      ∧ pr_rate r = sum_dec (rate <$> group).
Proof.
  intros Hrun Hrt selected rs. split; [|split].
  - unfold rs. by apply (project_loop_lists _ usage t rt).
  - unfold rs, project_query. fold selected.
    pose proof (group_by_NoDup
                  (fun f => (tenant_id f, res_type f, unit f)) selected)
      as Hnd.
    induction (group_by _ selected) as [|[[[kt kr] ku] g] groups IH];
      [apply NoDup_nil_2|].
    rewrite fmap_cons in *. apply NoDup_cons in Hnd as [Hk Hnd].
    cbn [List.filter]. simpl pr_tenant_id. simpl pr_res_type.
    destruct (decide (kt = t ∧ kr = rt)) as [[-> ->]|Hno].
    + rewrite bool_decide_eq_true_2 by done. rewrite fmap_cons.
      apply NoDup_cons. split; [|by apply IH]. simpl.
      intros Hin. apply Hk.
      apply list_elem_of_fmap in Hin as (r & -> & Hr).
      apply list_elem_of_In, List.filter_In in Hr as [Hr Hkeys].
      apply bool_decide_eq_true in Hkeys as [Hkt Hkr].
      apply list_elem_of_In, list_elem_of_fmap in Hr as ([k' g'] & -> & Hg).
      simpl in *. apply list_elem_of_fmap. exists (k', g').
      split; [|done]. destruct k' as [[? ?] ?]. simpl in *. by subst.
    + rewrite bool_decide_eq_false_2 by done. by apply IH.
  - intros r Hr group.
    apply list_elem_of_In, List.filter_In in Hr as [Hr Hkeys].
    apply bool_decide_eq_true in Hkeys as [Hkt Hkr].
    unfold project_query in Hr. fold selected in Hr.
    apply list_elem_of_In, list_elem_of_fmap in Hr
      as ([[[kt kr] ku] g] & -> & Hg).
    simpl in *. subst kt kr.
    apply group_by_spec in Hg as [Hg Hne].
    unfold group. simpl. rewrite <- Hg. done.
Qed.

End QueryProperties.

(** ** The no-op billing processor *)

Section NoopProperties.
Context {V : Type} (empty_dict : V).

Lemma process_entry_lookup (en : gmap string V) (k : string) :
  Noop.process_entry empty_dict en !! k
  = if decide (k = "billing")
    then Some (default empty_dict (en !! "billing"))
    else en !! k.
Proof.
  unfold Noop.process_entry.
  destruct (en !! "billing") as [v|] eqn:Hb; simpl.
  - destruct (decide (k = "billing")) as [->|]; done.
  - destruct (decide (k = "billing")) as [->|].
    + apply lookup_insert_eq.
    + by rewrite lookup_insert_ne.
Qed.

Lemma process_entry_idem (en : gmap string V) :
  Noop.process_entry empty_dict (Noop.process_entry empty_dict en)
  = Noop.process_entry empty_dict en.
Proof.
  unfold Noop.process_entry at 1.
  rewrite process_entry_lookup. by rewrite decide_True.
Qed.

Lemma process_run (data : list (@Noop.cur_data V)) :
  Noop.process empty_dict data
  = match mapM (@Noop.cd_usage V) data with
    | None => inl (KeyError "usage")
    | Some _ =>
        inr ((fun cd : @Noop.cur_data V =>
                {| Noop.cd_usage :=
                     (fun u : gmap string (list (gmap string V)) =>
                        (fun entries : list (gmap string V) =>
                           Noop.process_entry empty_dict <$> entries)
                        <$> u) <$> Noop.cd_usage cd;
                   Noop.cd_other := Noop.cd_other cd |}) <$> data)
    end.
Proof.
  induction data as [|cd data IH]; [done|].
  cbn [Noop.process mapM]. rewrite IH.
  destruct (Noop.cd_usage cd) as [u|] eqn:Hu; simpl; [|done].
  destruct (mapM (@Noop.cd_usage V) data); simpl; [|done].
  by rewrite Hu.
Qed.

(** X16: [Noop.process] raises [KeyError] exactly when an element of
    [data] has no 'usage' key; otherwise it returns [data] with the same
    elements, services and entries, where every entry holds a 'billing'
    key, keeps the value it had under that key if it had one, and is
    unchanged under every other key. *)
Theorem noop_process_effect (data : list (@Noop.cur_data V)) :
  (∀ err, Noop.process empty_dict data = inl err →
     err = KeyError "usage" ∧ ∃ cd, cd ∈ data ∧ Noop.cd_usage cd = None)
  ∧ (∀ data', Noop.process empty_dict data = inr data' →
       length data' = length data
       ∧ ∀ i cd cd', data !! i = Some cd → data' !! i = Some cd' →
           Noop.cd_other cd' = Noop.cd_other cd
           ∧ ∃ u u', Noop.cd_usage cd = Some u
                     ∧ Noop.cd_usage cd' = Some u'
                     ∧ dom u' = dom u
                     ∧ ∀ service entries j en,
                         u !! service = Some entries →
                         entries !! j = Some en →
                         ∃ entries' en',
                           u' !! service = Some entries'
                           ∧ length entries' = length entries
                           ∧ entries' !! j = Some en'
                           ∧ en' !! "billing"
                             = Some (default empty_dict (en !! "billing"))
                           ∧ ∀ k, k ≠ "billing" → en' !! k = en !! k).
Proof.
  rewrite process_run. split.
  - intros err. destruct (mapM (@Noop.cd_usage V) data) as [us|] eqn:Hm; [done|].
    intros [= <-]. split; [done|].
    apply mapM_None in Hm. apply Exists_exists in Hm as (cd & Hin & Hcd).
    by exists cd.
  - intros data'.
    destruct (mapM (@Noop.cd_usage V) data) as [us|] eqn:Hm; [|done].
    intros [= <-]. split; [apply length_fmap|].
    intros i cd cd' Hcd Hcd'. rewrite list_lookup_fmap, Hcd in Hcd'.
    injection Hcd' as <-. simpl. split; [done|].
    assert (is_Some (Noop.cd_usage cd)) as [u Hu].
    { assert (Hall : Forall (is_Some ∘ @Noop.cd_usage V) data)
        by (apply mapM_is_Some_1; by eexists).
      rewrite Forall_forall in Hall. apply Hall.
      by eapply list_elem_of_lookup_2. }
    rewrite Hu. simpl. eexists _, _. split; [done|]. split; [done|].
    split; [apply dom_fmap_L|].
    intros service entries j en Hs Hj.
    eexists _, _. rewrite lookup_fmap, Hs. simpl. split; [done|].
    split; [apply length_fmap|].
    split; [by rewrite list_lookup_fmap, Hj|].
    split.
    + rewrite process_entry_lookup. by rewrite decide_True.
    + intros k Hk. rewrite process_entry_lookup. by rewrite decide_False.
Qed.

(** X17: [Noop.process] is idempotent: processing its own result returns
    that result. *)
Theorem noop_process_idempotent (data data' : list (@Noop.cur_data V)) :
  Noop.process empty_dict data = inr data' →
  Noop.process empty_dict data' = inr data'.
Proof.
  rewrite !process_run.
  destruct (mapM (@Noop.cd_usage V) data) as [us|] eqn:Hm; [|done].
  intros [= <-].
  assert (Hall : Forall (fun cd => is_Some (Noop.cd_usage cd)) data).
  { assert (Hall : Forall (is_Some ∘ @Noop.cd_usage V) data)
      by (apply mapM_is_Some_1; by eexists).
    exact Hall. }
  clear Hm us. induction Hall as [|cd data [u Hu] _ IH]; [done|].
  rewrite !fmap_cons. cbn [mapM]. rewrite Hu. simpl.
  destruct (mapM (@Noop.cd_usage V) _) as [us'|]; [|done]. simpl.
  injection IH as IH. rewrite IH. do 3 f_equal.
  rewrite <- map_fmap_compose. f_equal. apply map_fmap_ext.
  intros service entries _. simpl. rewrite <- list_fmap_compose.
  apply list_fmap_ext. intros j en _. simpl. apply process_entry_idem.
Qed.

End NoopProperties.

(** ** Worked instances *)

(** The sample rows use ordinary tenant ids and resource types, and their
    sentinel row carries a rate of 0. *)
Lemma sample_rows_plain (f : frame) :
  f ∈ sample_rows →
  res_type f ≠ "total" ∧ res_type f ≠ "instance_id" ∧ tenant_id f ≠ ""
  ∧ (res_type f = "_NO_DATA_" → rate f = Decimal 0).
Proof.
  intros Hf.
  repeat (apply elem_of_cons in Hf as [->|Hf];
          [repeat split;
           (discriminate || (intros _; reflexivity)
            || (intros Hs; discriminate Hs))|]).
  by apply elem_of_nil in Hf.
Qed.

Lemma append_time_frame_missing_volume_witness :
  _append_time_frame "compute" record_without_qty "A" st_open_A =
    (inl (KeyError "qty"), st_open_A).
Proof.
  apply (append_time_frame_missing_volume "compute" record_without_qty "A"
           st_open_A (Vol None (Some "hour"))).
  - reflexivity.
  - left. reflexivity.
Defined.

(** C4 (as stated) fails: the exception raised for a record without [qty] is
    [KeyError], not [InvalidFrame]. *)
Lemma append_time_frame_not_InvalidFrame :
  (_append_time_frame "compute" record_without_qty "A" st_open_A).1
    = inl (KeyError "qty")
  ∧ (_append_time_frame "compute" record_without_qty "A" st_open_A).1
    ≠ inl InvalidFrame.
Proof. split; [reflexivity|discriminate]. Qed.

Lemma pre_commit_sentinel_witness :
  table ((_pre_commit "B" ;; _commit "B") st_idle_B).2 = [sentinel_B]
  ∧ table ((_pre_commit "B" ;; _commit "B") st_busy_B).2 = [].
Proof.
  split.
  - apply (proj1 (pre_commit_sentinel "B" st_idle_B)). reflexivity.
  - apply (proj2 (pre_commit_sentinel "B" st_busy_B)). reflexivity.
Defined.

(** C2 (as stated) fails: tenant "B" owns only a sentinel frame in the
    window (the one a commit without data leaves in the table), and
    [get_tenants] returns it. *)
Lemma get_tenants_returns_sentinel_only_tenant :
  "B" ∈ get_tenants 0 3600 [sentinel_B] (Some 0) (Some 3600)
  ∧ ¬ ∃ f, f ∈ [sentinel_B] ∧ tenant_id f = "B"
           ∧ res_type f ≠ "_NO_DATA_" ∧ in_window 0 3600 f = true.
Proof.
  split.
  - vm_compute. left.
  - intros (f & Hin & _ & Hne & _).
    apply list_elem_of_singleton in Hin. subst f. by apply Hne.
Qed.

(** C1 (as stated) fails for [get_total]: over a window holding only a
    sentinel row it returns [Decimal 0], over an empty window it returns
    [None]. *)
Lemma get_total_tells_sentinel_window_from_empty :
  get_total 0 3600 [sentinel_B] (Some 0) (Some 3600) None None
    = Some (Decimal 0)
  ∧ get_total 0 3600 [] (Some 0) (Some 3600) None None = None
  ∧ get_total 0 3600 [sentinel_B] (Some 0) (Some 3600) None None
    ≠ get_total 0 3600
        (List.filter (fun f => negb (is_sentinel f)) [sentinel_B])
        (Some 0) (Some 3600) None None.
Proof.
  split; [by vm_compute|]. split; [by vm_compute|]. by vm_compute.
Qed.

Lemma sentinel_frames_excluded_witness :
  get_total 0 3600 sample_rows None None None (Some "compute")
  = get_total 0 3600 (List.filter (fun f => negb (is_sentinel f)) sample_rows)
      None None None (Some "compute")
  ∧ default (Decimal 0) (get_total 0 3600 sample_rows None None None None)
    = default (Decimal 0)
        (get_total 0 3600
           (List.filter (fun f => negb (is_sentinel f)) sample_rows)
           None None None None).
Proof.
  destruct (sentinel_frames_excluded 0 3600 sample_rows None None None
              (Some "compute")) as (_ & _ & _ & _ & _ & Hservice & _).
  destruct (sentinel_frames_excluded 0 3600 sample_rows None None None None)
    as (_ & _ & _ & _ & _ & _ & Hzero).
  split.
  - apply Hservice; [reflexivity|discriminate].
  - apply Hzero. intros f Hf Hs.
    repeat (apply elem_of_cons in Hf as [->|Hf]; [by vm_compute in Hs |]);
      try (by vm_compute).
    by apply elem_of_nil in Hf.
Defined.


(** Scenario: a tenant with only a sentinel row has no time frame, unless the
    sentinel type is asked for. *)
Example get_time_frame_sentinel :
  get_time_frame (fun f => f) [sentinel_B] 0 3600 ∅ = inl NoTimeFrame
  ∧ get_time_frame (fun f => f) [sentinel_B] 0 3600
      {[col_res_type := CStr "_NO_DATA_"]} = inr [sentinel_B].
Proof. split; by vm_compute. Qed.


Example project_usage_sample_total :
  match get_project_usage 0 3600 sample_rows None None None None with
  | inr usage =>
      Some (usage !! "C" ≫= lookup "total",
            usage !! "C" ≫= lookup "compute",
            usage !! "B")
  | inl _ => None
  end
  = Some (Some (PUTotal (Decimal 4)),
          Some (PUList [{| e_qty := Decimal 5; e_unit := "instance";
                           e_rate := Decimal 1 |}]),
          None).
Proof. vm_compute. reflexivity. Qed.

(** A resource type called "total" makes [get_project_usage] raise. *)
Example project_usage_total_collision :
  get_project_usage 0 3600
    [{| tenant_id := "C"; res_type := "total"; unit := "u";
        qty := Decimal 1; rate := Decimal 1; desc := JString "";
        begin := Some 0; end_ := Some 3600 |}] None None None None
  = inl (AttributeError "append").
Proof. by vm_compute. Qed.

Lemma bandwidth_total_unit_witness :
  total_unit (total (get_bandwidth_hourly_usage 0 3600 sample_rows
                       None None None None)) = Some "GB"
  ∧ total (get_bandwidth_hourly_usage 0 3600 [sentinel_B; compute_C]
             None None None None)
    = {| total_in := Decimal 0; total_out := Decimal 0; total_unit := None |}.
Proof.
  destruct (bandwidth_total_unit 0 3600 sample_rows None None None None)
    as (_ & _ & Hlast).
  destruct (bandwidth_total_unit 0 3600 [sentinel_B; compute_C]
              None None None None) as (_ & Hnone & _).
  split.
  - apply (Hlast {| bw_begin := Some 0; bw_end := Some 3600;
                    bw_tenant_id := "C"; bw_unit := "GB";
                    bw_in := Decimal 0; bw_out := Decimal 7 |}).
    by vm_compute.
  - apply Hnone. by vm_compute.
Defined.

Example bandwidth_sample :
  get_bandwidth_hourly_usage 0 3600 sample_rows None None None None
  = {| data := [ {| bw_begin := Some 0; bw_end := Some 3600;
                    bw_tenant_id := "C"; bw_unit := "MB";
                    bw_in := Decimal 100; bw_out := Decimal 0 |};
                 {| bw_begin := Some 0; bw_end := Some 3600;
                    bw_tenant_id := "C"; bw_unit := "GB";
                    bw_in := Decimal 0; bw_out := Decimal 7 |} ];
       total := {| total_in := Decimal 100; total_out := Decimal 7;
                   total_unit := Some "GB" |} |}.
Proof. by vm_compute. Qed.




(** Scenario: an image frame and a compute frame that name the same
    instance are filed under that instance. *)
Example instance_usage_sample :
  match get_instance_usage 0 3600 sample_rows None None None None with
  | inr usage =>
      (fun instance_usage : gmap string iu_value =>
         (instance_usage !! "instance_id", instance_usage !! "instance_name",
          instance_usage !! "image", instance_usage !! "compute"))
      <$> (usage !! "C" ≫= lookup (Some "u1"))
  | inl _ => None
  end
  = Some (Some (IUId (Some "u1")),
          Some (IUList [ItemName (Some "vm1")]),
          Some (IUList [ItemEntry {| e_qty := Decimal 2; e_unit := "image";
                                     e_rate := Decimal 3 |}]),
          Some (IUList [ItemEntry {| e_qty := Decimal 5; e_unit := "instance";
                                     e_rate := Decimal 1 |}])).
Proof. vm_compute. reflexivity. Qed.

(** ** Worked instances of the further properties *)

Lemma get_state_watermark_witness :
  get_state (fun t => t) sample_rows (Some "C") = Some (Some 0)
  ∧ get_state (fun t => t) sample_rows (Some "Z") = None.
Proof.
  split; [by vm_compute|].
  apply (proj1 (get_state_watermark (fun t => t) sample_rows (Some "Z"))).
  intros f Hf.
  repeat (apply elem_of_cons in Hf as [->|Hf]; [by vm_compute|]).
  by apply elem_of_nil in Hf.
Defined.

Lemma check_session_keeps_witness :
  _session (_check_session "B" st_open_A).2 !! "A" = Some [].
Proof.
  apply (proj1 (proj2 (proj2 (check_session_keeps "B" st_open_A)))).
  reflexivity.
Defined.

(** A batch whose second record lacks its volume: the first row stays in the
    transaction and the error is the missing key. *)
Example dispatch_stops_at_bad_record :
  (_dispatch [("compute", [record_hour; record_without_qty; record_hour])]
     "A" st_open_A).1 = inl (KeyError "qty")
  ∧ length (default []
      (_session (_dispatch [("compute", [record_hour; record_without_qty;
                                          record_hour])]
                   "A" st_open_A).2 !! "A")) = 1%nat
  ∧ _has_data (_dispatch [("compute", [record_hour; record_without_qty;
                                        record_hour])]
                 "A" st_open_A).2 !! "A" = Some true.
Proof. repeat split; by vm_compute. Qed.

Lemma get_total_by_tenant_witness :
  default (Decimal 0) (get_total 0 3600 sample_rows None None None None)
  = sum_dec ((fun t => default (Decimal 0)
                         (get_total 0 3600 sample_rows None None (Some t) None))
             <$> get_tenants 0 3600 sample_rows None None).
Proof.
  apply (get_total_by_tenant 0 3600 sample_rows None None None).
  intros f Hf.
  repeat (apply elem_of_cons in Hf as [->|Hf]; [discriminate|]).
  by apply elem_of_nil in Hf.
Defined.

Lemma time_frame_tenant_listed_witness :
  "C" ∈ get_tenants 0 3600 sample_rows (Some 0) (Some 3600).
Proof.
  eapply (time_frame_tenant_listed 0 3600 (fun f => f) sample_rows 0 3600
            {[col_tenant_id := CStr "C"]} "C").
  - reflexivity.
  - discriminate.
  - by vm_compute.
Defined.

Lemma time_frame_window_monotone_witness :
  ∃ l', get_time_frame (fun f => f) sample_rows (-10) 4000 ∅ = inr l'
        ∧ [compute_C; image_C; bw_in_C; bw_out_C] `sublist_of` l'.
Proof.
  apply (time_frame_window_monotone (fun f => f) sample_rows 0 3600 (-10) 4000
           ∅ [compute_C; image_C; bw_in_C; bw_out_C]).
  - lia.
  - lia.
  - by vm_compute.
Defined.



Lemma project_usage_lists_witness :
  ∃ usage,
    get_project_usage 0 3600 sample_rows None None None None = inr usage
    ∧ usage !! "C" ≫= lookup "compute"
      = Some (PUList [{| e_qty := Decimal 5; e_unit := "instance";
                         e_rate := Decimal 1 |}])
    ∧ usage !! "C" ≫= lookup "_NO_DATA_" = None.
Proof.
  destruct (get_project_usage_returns 0 3600 sample_rows None None None None)
    as [usage Hrun]; [intros f Hf; by apply sample_rows_plain|].
  exists usage. split; [exact Hrun|]. split.
  - destruct (project_usage_lists 0 3600 sample_rows None None None None
                usage "C" "compute" Hrun) as [Hlist _]; [discriminate|].
    rewrite Hlist. vm_compute. reflexivity.
  - destruct (project_usage_lists 0 3600 sample_rows None None None None
                usage "C" "_NO_DATA_" Hrun) as [Hlist _]; [discriminate|].
    rewrite Hlist. vm_compute. reflexivity.
Defined.

Lemma noop_process_effect_witness :
  KeyError "usage" = KeyError "usage"
  ∧ ∃ cd, cd ∈ noop_data_without_usage ∧ Noop.cd_usage cd = None.
Proof.
  apply (proj1 (noop_process_effect "{}" noop_data_without_usage)).
  reflexivity.
Defined.

Lemma noop_process_idempotent_witness :
  ∃ data', Noop.process "{}" noop_data = inr data'
           ∧ Noop.process "{}" data' = inr data'.
Proof.
  eexists. split; [by vm_compute|].
  apply (noop_process_idempotent "{}" noop_data). by vm_compute.
Defined.

(** The processor adds the billing key to the entry that lacks it and leaves
    the rated one alone. *)
Example noop_process_sample :
  Noop.process "{}" noop_data
  = inr [{| Noop.cd_usage :=
              Some {["compute" := [ {["vol" := "1"; "billing" := "{}"]};
                                    {["vol" := "2"; "billing" := "rated"]} ]]};
            Noop.cd_other := {["period" := "p"]} |}].
Proof. by vm_compute. Qed.
